(** * The token-swap form of YAKZ: a shallow embedding of
      [frontend/src/App.jsx] and [frontend/src/services/api.js].

    The React component [App] keeps nine state variables and reacts to user
    input through four handlers ([handleSwap], [handleFinishSwap],
    [handleConnectWallet], [getTokenBalance]) and a handful of inline
    [onClick]/[onChange] callbacks.  A handler is embedded as a function of
    the state snapshot of the render it was created in and of the answers of
    the outside world (wallet, chain, backend); it yields the ordered list of
    effects it performs.  The calls of React state setters are effects like
    any other; the next state is obtained by committing them in order. *)

From Stdlib Require Import List String Ascii NArith ZArith Bool Lia Floats.
From Stdlib Require Import DecimalString.
From Stdlib Require QArith Qround.
Import ListNotations.

Set Implicit Arguments.
Set Warnings "-register-all".

(** ** JavaScript strings *)

(** A JavaScript string is a finite sequence of UTF-16 code units. *)
Definition jsstring := list N.

(** Source literals are ASCII; [js] reads one as a JavaScript string. *)
Definition js (s : string) : jsstring :=
  List.map N_of_ascii (list_ascii_of_string s).

(** [a === b] on strings. *)
Fixpoint eqb_str (a b : jsstring) : bool :=
  match a, b with
  | [], [] => true
  | x :: a', y :: b' => N.eqb x y && eqb_str a' b'
  | _, _ => false
  end.

(** [s.startsWith(p)], the test [includes] makes at each position. *)
Fixpoint isPrefix (p s : jsstring) : bool :=
  match p, s with
  | [], _ => true
  | _ :: _, [] => false
  | x :: p', y :: s' => N.eqb x y && isPrefix p' s'
  end.

(** [s.includes(needle)]: [needle] occurs in [s] at some position. *)
Fixpoint includes (s needle : jsstring) : bool :=
  isPrefix needle s ||
  match s with
  | [] => false
  | _ :: s' => includes s' needle
  end.

(** What [toLowerCase] does to a code unit of the ASCII range. *)
Definition lowerUnit (c : N) : N :=
  if (N.leb 65 c && N.leb c 90)%bool then (c + 32)%N else c.

Definition asciiLower (s : jsstring) : jsstring := List.map lowerUnit s.

Definition isAscii (s : jsstring) : bool :=
  forallb (fun c => N.ltb c 128) s.

(** ** Library functions the component calls

    [String.prototype.toLowerCase] follows the Unicode case mappings;
    [formatUnits] and [getAddress] come from the ethers package.  None of
    them is part of the repository: they are parameters of the model.
    [getAddress] answers [None] where the library throws (malformed address
    or bad checksum). *)
Record Runtime := {
  toLowerCase : jsstring -> jsstring;
  formatUnits : Z -> Z -> jsstring;
  getAddress : jsstring -> option jsstring
}.

(** ethers defines [formatEther(wei)] as [formatUnits(wei, 18)]. *)
Definition formatEther (rt : Runtime) (wei : Z) : jsstring :=
  formatUnits rt wei 18.

(** ** Tokens *)

Module Token.

(** [balance] is absent ([undefined]) until a balance fetch adds it. *)
Record t := mk {
  name : jsstring;
  address : jsstring;
  img : jsstring;
  balance : option jsstring
}.

(** [{...tok, balance}] *)
Definition withBalance (tok : t) (b : jsstring) : t :=
  mk (name tok) (address tok) (img tok) (Some b).

End Token.

Definition ETH : Token.t :=
  Token.mk (js "ETH") (js "0x4200000000000000000000000000000000000006")
    (js "https://cdn.worldvectorlogo.com/logos/ethereum-eth.svg") None.

Definition USDC : Token.t :=
  Token.mk (js "USDC") (js "0x833589fCD6eDb6E08f4c7C32D4f71b54bdA02913")
    (js "https://encrypted-tbn0.gstatic.com/images?q=tbn:ANd9GcQ43MuDqq54iD1ZCRL_uthAPkfwSSL-J5qI_Q&s")
    None.

Definition USDT : Token.t :=
  Token.mk (js "USDT") (js "0xfde4C96c8593536E31F229EA8f37b2ADa2699bb2")
    (js "https://images.seeklogo.com/logo-png/32/1/tether-usdt-logo-png_seeklogo-323175.png")
    None.

Definition LINK : Token.t :=
  Token.mk (js "LINK") (js "0x1D9328F2713E8b4EFca304093D53fcC2c068B7Cd")
    (js "https://s2.coinmarketcap.com/static/img/coins/200x200/1975.png") None.

Definition tokens : list Token.t := [ETH; USDC; USDT; LINK].

(** [tokens.filter(token => token.name.toLowerCase()
                                 .includes(searchTerm.toLowerCase()))] *)
Definition filteredTokens (rt : Runtime) (searchTerm : jsstring) : list Token.t :=
  List.filter
    (fun token =>
       includes (toLowerCase rt (Token.name token)) (toLowerCase rt searchTerm))
    tokens.

(** The words of the specification: [needle] is a substring of [s], and
    [l1] is a subsequence of [l2] in the order of [l2]. *)
Definition Substring (needle s : jsstring) : Prop :=
  exists pre post, s = pre ++ needle ++ post.

Inductive Subseq {A : Type} : list A -> list A -> Prop :=
| Subseq_nil : Subseq [] []
| Subseq_skip : forall x l1 l2, Subseq l1 l2 -> Subseq l1 (x :: l2)
| Subseq_keep : forall x l1 l2, Subseq l1 l2 -> Subseq (x :: l1) (x :: l2).

(** ** JavaScript values held in [data1]

    [response.json()] resolves to whatever JSON value the body holds;
    [aggregate] hands it on, or yields [undefined] from its [catch].  An
    object is the list of its own enumerable properties in enumeration
    order, which is what [Object.entries] returns. *)
Inductive value :=
| VUndefined
| VNull
| VBool (b : bool)
| VNum (x : float)
| VStr (s : jsstring)
| VArr (items : list value)
| VObj (props : list (jsstring * value)).

(** [if (v)]: [undefined], [null], [false], [0], [-0], [NaN] and [""] are
    falsy, everything else (every object and array) is truthy. *)
Definition truthy (v : value) : bool :=
  match v with
  | VUndefined | VNull => false
  | VBool b => b
  | VNum x => negb (PrimFloat.eqb x 0%float) && negb (PrimFloat.is_nan x)
  | VStr s => negb (eqb_str s [])
  | VArr _ | VObj _ => true
  end.

(** The property name of an array or string index. *)
Definition indexKey (i : nat) : jsstring :=
  js (NilZero.string_of_uint (Nat.to_uint i)).

Fixpoint indexed {A : Type} (i : nat) (l : list A) : list (jsstring * A) :=
  match l with
  | [] => []
  | x :: l' => (indexKey i, x) :: indexed (S i) l'
  end.

(** [Object.entries(v)] for a [v] that is not [undefined] or [null]. *)
Definition objectEntries (v : value) : list (jsstring * value) :=
  match v with
  | VObj props => props
  | VArr items => indexed 0 items
  | VStr s => indexed 0 (List.map (fun c => VStr [c]) s)
  | _ => []
  end.

(** [Object.keys(v)] *)
Definition objectKeys (v : value) : list jsstring :=
  List.map fst (objectEntries v).

(** ** The outside world *)

(** The body of the aggregation request. *)
Record Payload := {
  token1Address : jsstring;
  token1Amount : jsstring;
  token2Address : jsstring
}.

(** What [response.json()] does with a body: it rejects when the body is
    not JSON, and resolves to the parsed value otherwise. *)
Inductive Body :=
| NotJson
| Parsed (v : value).

(** [fetch] rejects on a network failure and resolves to a response, with
    its HTTP status, otherwise. *)
Inductive FetchOutcome :=
| NetworkError
| Response (status : N) (body : Body).

(** [response.ok] *)
Definition ok (status : N) : bool := N.leb 200 status && N.leb status 299.

Inductive Provider := BrowserProvider.
Inductive Signer := JsonRpcSigner.

(** The answers the wallet, the chain and the backend give during one
    handler run.  [None] stands for a rejected promise. *)
Record World := {
  ethereum : bool;
  getSigner : option Signer;
  signerAddress : option jsstring;
  requestAccounts : option (list jsstring);
  nativeBalance : jsstring -> option Z;
  balanceOf : jsstring -> jsstring -> option Z;
  decimals : jsstring -> option Z;
  symbol : jsstring -> option jsstring;
  backend : FetchOutcome;
  audioPlays : bool
}.

(** ** Effects *)

(** The read-only calls on the ERC-20 contract at [contract]. *)
Inductive ContractRead :=
| BalanceOf (contract account : jsstring)
| Decimals (contract : jsstring)
| Symbol (contract : jsstring).

Inductive Event :=
| SetFromToken (t : Token.t)
| SetToToken (t : Token.t)
| SetAmount (a : jsstring)
| SetIsRoute (b : bool)
| SetData (d : value)
| SetSigner (s : Signer)
| SetAddress (a : jsstring)
| SetProvider (p : Provider)
| SetSearchTerm (s : jsstring)
| Alert (msg : jsstring)
| ConsoleLog (msg : jsstring)
| ConsoleWarn (msg : jsstring)
| ConsoleError (msg : jsstring)
| Fetch (url : jsstring) (body : Payload)
| ResponseJson
| PlayAudio
| NewBrowserProvider
| ProviderGetSigner
| SignerGetAddress
| Send (method : jsstring)
| GetBalance (account : jsstring)
| Issue (r : ContractRead)
| AwaitAll (n : nat).

(** The effects that start a request and suspend the handler. *)
Definition isAsync (e : Event) : bool :=
  match e with
  | Fetch _ _ | ResponseJson | PlayAudio | ProviderGetSigner
  | SignerGetAddress | Send _ | GetBalance _ | Issue _ | AwaitAll _ => true
  | _ => false
  end.

Definition isContractRead (e : Event) : bool :=
  match e with Issue _ => true | _ => false end.

Definition isSetIsRoute (e : Event) : bool :=
  match e with SetIsRoute _ => true | _ => false end.

Definition isFetch (e : Event) : bool :=
  match e with Fetch _ _ => true | _ => false end.

(** ** Handler bodies: effects in order, and exceptions

    A computation yields the effects it performed and its result, [None]
    when it threw (when the promise of an [async] function rejected). *)
Definition M (A : Type) : Type := (list Event * option A)%type.

Definition ret {A : Type} (a : A) : M A := ([], Some a).

Definition bind {A B : Type} (m : M A) (k : A -> M B) : M B :=
  match m with
  | (t, None) => (t, None)
  | (t, Some a) => let (t', r) := k a in (t ++ t', r)
  end.

Definition emit (e : Event) : M unit := ([e], Some tt).

(** [try { m } catch (error) { h }] *)
Definition try_ {A : Type} (m : M A) (h : M A) : M A :=
  match m with
  | (t, Some a) => (t, Some a)
  | (t, None) => let (t', r) := h in (t ++ t', r)
  end.

(** A call of an [async] function whose promise is dropped: a rejection
    does not reach the caller. *)
Definition detach {A : Type} (m : M A) : M unit := (fst m, Some tt).

(** A library call that returns [a], or throws when [r] is [None]. *)
Definition orThrow {A : Type} (r : option A) : M A := ([], r).

(** [await p] for a request [e] the world answers with [r]. *)
Definition await {A : Type} (e : Event) (r : option A) : M A :=
  ([e], r).

Declare Scope js_scope.
Delimit Scope js_scope with js_m.
Notation "x <- m ;; k" := (bind m (fun x => k))
  (at level 61, m at next level, right associativity) : js_scope.
Notation "m ;; k" := (bind m (fun _ => k))
  (at level 61, right associativity) : js_scope.
Local Open Scope js_scope.

Definition trace {A : Type} (m : M A) : list Event := fst m.

(** ** The state of [App] *)

Record State := {
  fromToken : Token.t;
  toToken : Token.t;
  amount : jsstring;
  isRoute : bool;
  data1 : value;
  signer : option Signer;
  address : option jsstring;
  provider : option Provider;
  searchTerm : jsstring
}.

(** The arguments of the [useState] calls. *)
Definition initialState : State := {|
  fromToken := ETH;
  toToken := USDT;
  amount := js "";
  isRoute := false;
  data1 := VObj [];
  signer := None;
  address := None;
  provider := None;
  searchTerm := js ""
|}.

(** What a setter call does to the state of the next render. *)
Definition applySetter (st : State) (e : Event) : State :=
  match e with
  | SetFromToken t =>
      Build_State t (toToken st) (amount st) (isRoute st) (data1 st)
        (signer st) (address st) (provider st) (searchTerm st)
  | SetToToken t =>
      Build_State (fromToken st) t (amount st) (isRoute st) (data1 st)
        (signer st) (address st) (provider st) (searchTerm st)
  | SetAmount a =>
      Build_State (fromToken st) (toToken st) a (isRoute st) (data1 st)
        (signer st) (address st) (provider st) (searchTerm st)
  | SetIsRoute b =>
      Build_State (fromToken st) (toToken st) (amount st) b (data1 st)
        (signer st) (address st) (provider st) (searchTerm st)
  | SetData d =>
      Build_State (fromToken st) (toToken st) (amount st) (isRoute st) d
        (signer st) (address st) (provider st) (searchTerm st)
  | SetSigner s =>
      Build_State (fromToken st) (toToken st) (amount st) (isRoute st)
        (data1 st) (Some s) (address st) (provider st) (searchTerm st)
  | SetAddress a =>
      Build_State (fromToken st) (toToken st) (amount st) (isRoute st)
        (data1 st) (signer st) (Some a) (provider st) (searchTerm st)
  | SetProvider p =>
      Build_State (fromToken st) (toToken st) (amount st) (isRoute st)
        (data1 st) (signer st) (address st) (Some p) (searchTerm st)
  | SetSearchTerm s =>
      Build_State (fromToken st) (toToken st) (amount st) (isRoute st)
        (data1 st) (signer st) (address st) (provider st) s
  | _ => st
  end.

Definition commit (st : State) (t : list Event) : State :=
  fold_left applySetter t st.

(** ** [services/api.js] *)

(** [await fetch(url, {method: "POST", ..., body: JSON.stringify(payload)})] *)
Definition fetch (net : FetchOutcome) (url : jsstring) (payload : Payload)
  : M (N * Body) :=
  await (Fetch url payload)
    match net with
    | NetworkError => None
    | Response status body => Some (status, body)
    end.

(** [await response.json()] *)
Definition json (response : N * Body) : M value :=
  await ResponseJson
    match snd response with
    | NotJson => None
    | Parsed v => Some v
    end.

Definition aggregate (net : FetchOutcome)
  (token1Address token1Amount token2Address : jsstring) : M value :=
  let url := js "" in
  let payload := Build_Payload token1Address token1Amount token2Address in
  try_
    (response <- fetch net url payload ;;
     data <- json response ;;
     ret data)
    (emit (ConsoleError (js "Hata:")) ;;
     ret VUndefined).

(** ** The handlers of [App] *)

Definition handleSwap (st : State) : M unit :=
  let token1 := fromToken st in
  emit (SetFromToken (toToken st)) ;;
  emit (SetToToken token1).

Definition handleFinishSwap (w : World) (st : State) : M unit :=
  try_
    (emit (SetIsRoute true) ;;
     data <- aggregate (backend w) (Token.address (fromToken st)) (js "1")
               (Token.address (toToken st)) ;;
     if truthy data then
       emit (SetData data) ;;
       emit (ConsoleLog (js "DATA1")) ;;
       emit PlayAudio ;;
       if audioPlays w then ret tt else emit (ConsoleWarn (js "play failed"))
     else
       emit (ConsoleLog (js "Failed to update transaction status")))
    (emit (ConsoleError (js "Error updating transaction status:"))).

(** The address the component treats as the native asset. *)
Definition nativeAddress : jsstring :=
  js "0x4200000000000000000000000000000000000006".

(** [accounts[0]] when it is truthy. *)
Definition firstAccount (accounts : list jsstring) : option jsstring :=
  match accounts with
  | [] => None
  | a :: _ => if eqb_str a [] then None else Some a
  end.

(** [await Promise.all([balanceOf(user), decimals(), symbol()])]: the three
    calls are made while the array is built, then the handler suspends once
    for all of them; the combined promise rejects if one of them does. *)
Definition readErc20 (w : World) (contract user : jsstring)
  : M (Z * Z * jsstring) :=
  emit (Issue (BalanceOf contract user)) ;;
  emit (Issue (Decimals contract)) ;;
  emit (Issue (Symbol contract)) ;;
  await (AwaitAll 3)
    match balanceOf w contract user, decimals w contract, symbol w contract with
    | Some rawBalance, Some dec, Some fetchedSymbol =>
        Some (rawBalance, dec, fetchedSymbol)
    | _, _, _ => None
    end.

(** The two branches that compute [balance] and [symbol]; [None] is the
    [return] of the inner [catch]. *)
Definition readBalance (rt : Runtime) (w : World)
  (tokenAddress userAddress : jsstring) : M (option (jsstring * jsstring)) :=
  if eqb_str tokenAddress nativeAddress then
    rawBalance <- await (GetBalance userAddress) (nativeBalance w userAddress) ;;
    ret (Some (formatEther rt rawBalance, js "ETH"))
  else
    try_
      (contractAddress <- orThrow (getAddress rt tokenAddress) ;;
       r <- readErc20 w contractAddress userAddress ;;
       let '(rawBalance, dec, fetchedSymbol) := r in
       ret (Some (formatUnits rt rawBalance dec, fetchedSymbol)))
      (emit (ConsoleError (js "Error getting token balance:")) ;;
       ret None).

Definition getTokenBalance (rt : Runtime) (w : World) (st : State)
  (tokenAddress fromOrTo : jsstring) : M unit :=
  if negb (ethereum w) then
    emit (ConsoleError (js "MetaMask not detected"))
  else
    emit NewBrowserProvider ;;
    accounts <- await (Send (js "eth_requestAccounts")) (requestAccounts w) ;;
    match firstAccount accounts with
    | None => emit (ConsoleError (js "No address found"))
    | Some userAddress =>
        r <- readBalance rt w tokenAddress userAddress ;;
        match r with
        | None => ret tt
        | Some (balance, symbol) =>
            let updatedToken :=
              Token.withBalance
                (if eqb_str fromOrTo (js "from") then fromToken st
                 else toToken st)
                balance in
            (if eqb_str fromOrTo (js "from")
             then emit (SetFromToken updatedToken)
             else emit (SetToToken updatedToken)) ;;
            emit (ConsoleLog (symbol ++ js " Balance:"))
        end
    end.

(** The two [getTokenBalance] calls are not awaited: each runs on after the
    handler has returned, and a rejection in one reaches nobody.  They write
    different state variables; the model lists the effects of the "from"
    call before those of the "to" call. *)
Definition handleConnectWallet (rt : Runtime) (w : World) (st : State)
  : M unit :=
  if negb (ethereum w) then
    emit (Alert (js "MetaMask not found!"))
  else
    try_
      (emit NewBrowserProvider ;;
       let provider := BrowserProvider in
       signer <- await ProviderGetSigner (getSigner w) ;;
       address <- await SignerGetAddress (signerAddress w) ;;
       emit (SetSigner signer) ;;
       emit (SetAddress address) ;;
       emit (SetProvider provider) ;;
       detach (getTokenBalance rt w st (Token.address (fromToken st)) (js "from")) ;;
       detach (getTokenBalance rt w st (Token.address (toToken st)) (js "to")) ;;
       emit (ConsoleLog (js "Wallet connected:")))
      (emit (ConsoleError (js "Error connecting wallet:"))).

(** ** What [App] renders *)

(** A token dropdown: the token on its button, the text in its search box
    and the rows of its list. *)
Record Dropdown := {
  selected : Token.t;
  searchValue : jsstring;
  rows : list Token.t
}.

Definition fromDropdown (rt : Runtime) (st : State) : Dropdown := {|
  selected := fromToken st;
  searchValue := searchTerm st;
  rows := filteredTokens rt (searchTerm st)
|}.

Definition toDropdown (rt : Runtime) (st : State) : Dropdown := {|
  selected := toToken st;
  searchValue := searchTerm st;
  rows := filteredTokens rt (searchTerm st)
|}.

(** The four percentage buttons. *)
Inductive Preset := P25 | P50 | P75 | P100.

Definition label (p : Preset) : jsstring :=
  match p with
  | P25 => js "25%"
  | P50 => js "50%"
  | P75 => js "75%"
  | P100 => js "100%"
  end.

(** [amount === "25%" && "active"] in the button's class. *)
Definition active (st : State) (p : Preset) : bool :=
  eqb_str (amount st) (label p).

(** The body of the route accordion: the entries of [data1], or the three
    fixed sample routes when [data1 || {}] has no key. *)
Inductive RouteBody :=
| Legs (entries : list (jsstring * value))
| SampleRoutes.

Definition accordionBody (data1 : value) : RouteBody :=
  if Nat.ltb 0 (List.length (objectKeys (if truthy data1 then data1 else VObj [])))
  then Legs (objectEntries data1)
  else SampleRoutes.

(** [{isRoute && (...)}] *)
Definition routeAccordion (st : State) : option RouteBody :=
  if isRoute st then Some (accordionBody (data1 st)) else None.

(** ** User actions *)

Inductive Action :=
| PickFrom (row : nat)
| PickTo (row : nat)
| TypeFromSearch (text : jsstring)
| TypeToSearch (text : jsstring)
| ClickPreset (p : Preset)
| ClickInvert
| ClickSwap (w : World)
| ClickConnect (w : World).

(** The callback each action runs, with the state of the current render. *)
Definition handler (rt : Runtime) (st : State) (a : Action) : M unit :=
  match a with
  | PickFrom row =>
      match nth_error (rows (fromDropdown rt st)) row with
      | Some token => emit (SetFromToken token)
      | None => ret tt
      end
  | PickTo row =>
      match nth_error (rows (toDropdown rt st)) row with
      | Some token => emit (SetToToken token)
      | None => ret tt
      end
  | TypeFromSearch text => emit (SetSearchTerm text)
  | TypeToSearch text => emit (SetSearchTerm text)
  | ClickPreset p => emit (SetAmount (label p))
  | ClickInvert => handleSwap st
  | ClickSwap w => handleFinishSwap w st
  | ClickConnect w => handleConnectWallet rt w st
  end.

(** One action: its callback runs on the current state and the setter
    calls it makes are committed before the next action.  Runs of
    asynchronous handlers that overlap in time are not modelled. *)
Definition step (rt : Runtime) (st : State) (a : Action) : State :=
  commit st (trace (handler rt st a)).

Definition run (rt : Runtime) (st : State) (actions : list Action) : State :=
  fold_left (step rt) actions st.

(** ** Reading traces *)

(** The effects after the first [fetch]. *)
Fixpoint afterFetch (t : list Event) : list Event :=
  match t with
  | [] => []
  | e :: t' => if isFetch e then t' else afterFetch t'
  end.

(** The effects before the first [fetch]. *)
Fixpoint beforeFetch (t : list Event) : list Event :=
  match t with
  | [] => []
  | e :: t' => if isFetch e then [] else e :: beforeFetch t'
  end.

(** The effects before the first suspension at [Promise.all]. *)
Fixpoint beforeAwaitAll (t : list Event) : list Event :=
  match t with
  | [] => []
  | AwaitAll _ :: _ => []
  | e :: t' => e :: beforeAwaitAll t'
  end.

Definition contractReads (t : list Event) : list Event :=
  List.filter isContractRead t.

(** The value [aggregate] resolves to inside [handleFinishSwap]. *)
Definition aggregated (w : World) (st : State) : option value :=
  snd (aggregate (backend w) (Token.address (fromToken st)) (js "1")
         (Token.address (toToken st))).

(** [handleFinishSwap] takes its [else] branch: [aggregate] gave a falsy
    value ([undefined] after an error, or a falsy body). *)
Definition aggregationFailed (w : World) (st : State) : bool :=
  match aggregated w st with
  | Some data => negb (truthy data)
  | None => true
  end.

(** ** An instance of the library functions, for worked examples

    [toLowerCase] restricted to ASCII, [getAddress] accepting the
    ["0x"]-prefixed strings of 42 code units, and a [formatUnits] that
    prints the raw amount and the number of decimals side by side. *)
Definition decimal (z : Z) : jsstring :=
  js (NilZero.string_of_int (Z.to_int z)).

Definition sampleRuntime : Runtime := {|
  toLowerCase := asciiLower;
  formatUnits := fun raw dec => decimal raw ++ js "e-" ++ decimal dec;
  getAddress := fun a =>
    if Nat.eqb (List.length a) 42 && isPrefix (js "0x") a then Some a else None
|}.

Definition sampleAccount : jsstring :=
  js "0x70997970C51812dc3A010C7d01b50e0d17dc79C8".

(** A world with a wallet holding 2 ETH and 1.5 USDC, a backend that is
    down, and sound. *)
Definition sampleWorld : World := {|
  ethereum := true;
  getSigner := Some JsonRpcSigner;
  signerAddress := Some sampleAccount;
  requestAccounts := Some [sampleAccount];
  nativeBalance := fun _ => Some 2000000000000000000%Z;
  balanceOf := fun _ _ => Some 1500000%Z;
  decimals := fun _ => Some 6%Z;
  symbol := fun _ => Some (js "USDC");
  backend := NetworkError;
  audioPlays := true
|}.

Definition withBackend (w : World) (net : FetchOutcome) : World := {|
  ethereum := ethereum w;
  getSigner := getSigner w;
  signerAddress := signerAddress w;
  requestAccounts := requestAccounts w;
  nativeBalance := nativeBalance w;
  balanceOf := balanceOf w;
  decimals := decimals w;
  symbol := symbol w;
  backend := net;
  audioPlays := audioPlays w
|}.

Definition withAccounts (w : World) (accounts : option (list jsstring))
  : World := {|
  ethereum := ethereum w;
  getSigner := getSigner w;
  signerAddress := signerAddress w;
  requestAccounts := accounts;
  nativeBalance := nativeBalance w;
  balanceOf := balanceOf w;
  decimals := decimals w;
  symbol := symbol w;
  backend := backend w;
  audioPlays := audioPlays w
|}.

Definition withoutWallet (w : World) : World := {|
  ethereum := false;
  getSigner := None;
  signerAddress := None;
  requestAccounts := None;
  nativeBalance := fun _ => None;
  balanceOf := fun _ _ => None;
  decimals := fun _ => None;
  symbol := fun _ => None;
  backend := backend w;
  audioPlays := audioPlays w
|}.

(** A route as a backend could answer it, and the state once it is stored. *)
Definition sampleRoute : value :=
  VObj [(Token.address USDC, VStr (js "0.5")); (Token.address USDT, VStr (js "0.5"))].

Definition routedState : State :=
  commit initialState [SetIsRoute true; SetData sampleRoute].

(** ** Properties of traces *)

(** Every effect of [m] satisfies [P]. *)
Definition Emits {A : Type} (P : Event -> Prop) (m : M A) : Prop :=
  Forall P (trace m).

(** Any effect but [setIsRoute(false)]. *)
Definition keepsFlag (e : Event) : Prop := e <> SetIsRoute false.

Definition isSetData (e : Event) : bool :=
  match e with SetData _ => true | _ => false end.

(** ** Reachable states of [App] *)

(** Two token objects that differ in [balance] at most. *)
Definition sameToken (a b : Token.t) : Prop :=
  Token.name a = Token.name b /\
  Token.address a = Token.address b /\
  Token.img a = Token.img b.

(** A token object made from an entry of [tokens]. *)
Definition listed (t : Token.t) : Prop :=
  exists entry, In entry tokens /\ sameToken t entry.

Definition isClickSwap (a : Action) : bool :=
  match a with ClickSwap _ => true | _ => false end.

(** A click on "Connect" that gets a signer and its address. *)
Definition connects (a : Action) : bool :=
  match a with
  | ClickConnect w =>
      ethereum w &&
      match getSigner w, signerAddress w with
      | Some _, Some _ => true
      | _, _ => false
      end
  | _ => false
  end.

(** The preset clicked last, if any was. *)
Fixpoint lastPreset (actions : list Action) : option Preset :=
  match actions with
  | [] => None
  | a :: actions' =>
      match lastPreset actions' with
      | Some p => Some p
      | None => match a with ClickPreset p => Some p | _ => None end
      end
  end.

Definition isSessionSetter (e : Event) : bool :=
  match e with
  | SetSigner _ | SetAddress _ | SetProvider _ => true
  | _ => false
  end.

Definition isSetFromToken (e : Event) : bool :=
  match e with SetFromToken _ => true | _ => false end.

Definition isSetToToken (e : Event) : bool :=
  match e with SetToToken _ => true | _ => false end.

(** A call of a React state setter. *)
Definition isSetter (e : Event) : bool :=
  match e with
  | SetFromToken _ | SetToToken _ | SetAmount _ | SetIsRoute _ | SetData _
  | SetSigner _ | SetAddress _ | SetProvider _ | SetSearchTerm _ => true
  | _ => false
  end.

(** [token.balance ? token.balance : "--"], the text after "Balance:". *)
Definition balanceText (token : Token.t) : jsstring :=
  match Token.balance token with
  | Some b => if eqb_str b [] then js "--" else b
  | None => js "--"
  end.

(** A setter call for a token passes a token of the list. *)
Definition carriesListed (e : Event) : Prop :=
  match e with
  | SetFromToken t | SetToToken t => listed t
  | _ => True
  end.

(** A [setData] call passes a truthy value. *)
Definition carriesTruthy (e : Event) : Prop :=
  match e with
  | SetData d => truthy d = true
  | _ => True
  end.

(** The wallet session held in the state. *)
Definition session (st : State)
  : option Signer * option jsstring * option Provider :=
  (signer st, address st, provider st).

(** The formatted balance a [getTokenBalance] call for [tokenAddress]
    arrives at, if it gets that far. *)
Definition fetchedBalance (rt : Runtime) (w : World) (tokenAddress : jsstring)
  : option jsstring :=
  if ethereum w then
    match requestAccounts w with
    | Some accounts =>
        match firstAccount accounts with
        | Some userAddress =>
            match snd (readBalance rt w tokenAddress userAddress) with
            | Some (Some (balance, _)) => Some balance
            | _ => None
            end
        | None => None
        end
    | None => None
    end
  else None.

(** ** [utils/truncateString.js] *)

(** How [slice] reads an integer index of a string of [len] units:
    a negative index counts from the end, and both ends are clamped. *)
Definition clampIndex (len i : Z) : Z :=
  if Z.ltb i 0 then Z.max (len + i) 0 else Z.min i len.

(** [s.slice(start, end)] for integer arguments; [None] is an omitted
    [end]. *)
Definition slice (s : jsstring) (start : Z) (end_ : option Z) : jsstring :=
  let len := Z.of_nat (List.length s) in
  let from := clampIndex len start in
  let to := match end_ with
            | Some e => clampIndex len e
            | None => len
            end in
  firstn (Z.to_nat (to - from)) (skipn (Z.to_nat from) s).

(** [truncateString(str, maxLength)] for any value [str] and an integer
    [maxLength]. *)
Definition truncateString (str : value) (maxLength : Z) : jsstring :=
  match str with
  | VStr s =>
      if eqb_str s [] then js ""
      else if Z.leb (Z.of_nat (List.length s)) maxLength then s
      else slice s 0 (Some maxLength) ++ js "..."
  | _ => js ""
  end.

(** [truncateAddress(address, front, back)] for an [address] that is
    [undefined] or a string, and integer [front] and [back]. *)
Definition truncateAddress (address : option jsstring) (front back : Z)
  : jsstring :=
  match address with
  | Some a =>
      if eqb_str a [] then js ""
      else slice a 0 (Some front) ++ js "..." ++ slice a (- back) None
  | None => js ""
  end.

(** ** [hooks/useViewport.jsx] *)

Definition tablet : Z := 768.
Definition desktop : Z := 1250.

(** [getViewport()]: [window] is [None] where there is no [window],
    and its inner width otherwise; the result [None] is [undefined]. *)
Definition getViewport (window : option Z) : option jsstring :=
  match window with
  | None => Some (js "desktop")
  | Some width =>
      if Z.ltb width tablet then Some (js "mobile")
      else if Z.ltb width desktop then Some (js "tablet")
      else if Z.gtb width desktop then Some (js "desktop")
      else None
  end.

(** ** The label of the "Connect" button *)

(** [viewport != "mobile"] *)
Definition notMobile (viewport : option jsstring) : bool :=
  match viewport with
  | Some v => negb (eqb_str v (js "mobile"))
  | None => true
  end.

Definition connectLabel (viewport : option jsstring) (st : State) : jsstring :=
  match address st with
  | Some a =>
      if eqb_str a [] then
        js "Connect " ++ (if notMobile viewport then js "Wallet" else js "")
      else if notMobile viewport then truncateAddress (Some a) 6 4
      else truncateString (VStr a) 6
  | None => js "Connect " ++ (if notMobile viewport then js "Wallet" else js "")
  end.

(** ** [handleForwardLink], from the file of [copyToClipboard] *)




(** ** [components/button1.jsx]: the click sounds *)

(** The four imported sounds, named by their files. *)
Definition soundFiles : list jsstring :=
  [js "Click 01.mp3"; js "Click 02.mp3"; js "Click 03.mp3"; js "Click 04.mp3"].

(** [soundFiles[Math.floor(Math.random() * soundFiles.length)]] for the
    number [random] that [Math.random()] returned.  The product with 4 is
    exact in binary floating point, so the rational product is the one
    JavaScript computes. *)
Definition pickSound (random : QArith_base.Q) : option jsstring :=
  match Qround.Qfloor
          (QArith_base.Qmult random
             (QArith_base.inject_Z (Z.of_nat (List.length soundFiles)))) with
  | Zneg _ => None
  | index => nth_error soundFiles (Z.to_nat index)
  end.

(** ** Effects with thrown values

    The SDK and its hooks pass errors on, so their computations keep the
    value that was thrown: [inl error] is a throw (a rejected promise),
    [inr a] a return. *)
Inductive Thrown :=
| FetchRejected
| JsonRejected
| TypeErrorThrown
| ReferenceErrorThrown
| ErrorOf (message : value).

Definition Eff (E A : Type) : Type := (list E * (Thrown + A))%type.

Definition eret {E A : Type} (a : A) : Eff E A := ([], inr a).

Definition ethrow {E A : Type} (error : Thrown) : Eff E A := ([], inl error).

Definition eemit {E : Type} (e : E) : Eff E unit := ([e], inr tt).

Definition ebind {E A B : Type} (m : Eff E A) (k : A -> Eff E B) : Eff E B :=
  match m with
  | (t, inl error) => (t, inl error)
  | (t, inr a) => let (t', r) := k a in (t ++ t', r)
  end.

(** [try { m } catch (error) { h error }] *)
Definition etry {E A : Type} (m : Eff E A) (h : Thrown -> Eff E A) : Eff E A :=
  match m with
  | (t, inr a) => (t, inr a)
  | (t, inl error) => let (t', r) := h error in (t ++ t', r)
  end.

(** [try { m } finally { f }] for an [f] that does not throw or return. *)
Definition efinally {E A : Type} (m : Eff E A) (f : list E) : Eff E A :=
  (fst m ++ f, snd m).

(** [await p] for a request [e] that is answered with [r]. *)
Definition eawait {E A : Type} (e : E) (r : Thrown + A) : Eff E A := ([e], r).

Declare Scope eff_scope.
Delimit Scope eff_scope with eff.
Notation "x <- m ;; k" := (ebind m (fun x => k))
  (at level 61, m at next level, right associativity) : eff_scope.
Notation "m ;; k" := (ebind m (fun _ => k))
  (at level 61, right associativity) : eff_scope.

(** [v[key]] for a key that is neither an index nor ["length"]: reading a
    property of [undefined] or [null] throws, an object answers with its
    own property, and every other value has no such property.  ([None] is
    the [TypeError].) *)
Fixpoint lookupProp (props : list (jsstring * value)) (key : jsstring) : value :=
  match props with
  | [] => VUndefined
  | (k, v) :: rest => if eqb_str k key then v else lookupProp rest key
  end.

Definition getProp (v : value) (key : jsstring) : option value :=
  match v with
  | VUndefined | VNull => None
  | VObj props => Some (lookupProp props key)
  | _ => Some VUndefined
  end.

(** The decimal digits of an HTTP status. *)
Definition decimalN (n : N) : jsstring :=
  js (NilZero.string_of_uint (N.to_uint n)).

(** ** [frontend_integration/trading-sdk.js] *)

Inductive ApiEvent :=
| ApiFetch (url method key : jsstring) (body : option value)
| ApiJson
| ApiConsoleError (label : jsstring)
| SetLoading (b : bool)
| SetError (error : option Thrown)
| SetAccountInfo (info : value).

Definition isApiFetch (e : ApiEvent) : bool :=
  match e with ApiFetch _ _ _ _ => true | _ => false end.

Definition isApiConsoleError (e : ApiEvent) : bool :=
  match e with ApiConsoleError _ => true | _ => false end.

(** One handler of one event name, known by its identity; [throws] tells
    whether calling it throws.  Handlers do not touch the registry. *)
Definition Callback := nat.

Inductive EmitEvent :=
| Call (callback : Callback)
| CallbackError (callback : Callback).

(** The fields of a parsed trading event. *)
Record TradingEvent := {
  exchange : jsstring;
  quantity : float;
  price : float;
  pair : jsstring;
  side : jsstring
}.

(** [s.split(String.fromCharCode(sep))] *)
Fixpoint splitOn (sep : N) (s : jsstring) : list jsstring :=
  match s with
  | [] => [[]]
  | c :: s' =>
      if N.eqb c sep then [] :: splitOn sep s'
      else match splitOn sep s' with
           | part :: parts => (c :: part) :: parts
           | [] => [[c]]
           end
  end.

(** The code unit of ["|"]. *)
Definition bar : N := 124.

(** [callbacks.splice(callbacks.indexOf(callback), 1)] when the index is
    not [-1]. *)
Fixpoint removeFirst (callback : Callback) (callbacks : list Callback)
  : list Callback :=
  match callbacks with
  | [] => []
  | c :: rest => if Nat.eqb c callback then rest else c :: removeFirst callback rest
  end.

Module TradingAPI.

(** [new TradingAPI(apiKey, baseURL)] *)
Record t := {
  apiKey : jsstring;
  baseURL : jsstring
}.

Definition defaultBaseURL : jsstring := js "http://localhost:8000".

(** [data.error?.message || `HTTP ${response.status}`] *)
Definition errorMessage (data : value) (status : N) : Thrown + value :=
  match getProp data (js "error") with
  | None => inl TypeErrorThrown
  | Some error =>
      let message :=
        match getProp error (js "message") with
        | Some m => m
        | None => VUndefined
        end in
      inr (if truthy message then message else VStr (js "HTTP " ++ decimalN status))
  end.

(** [request(endpoint, {method, body})]; [net] is what the network
    answers.  The body is sent when it is truthy. *)
Definition request (api : t) (net : FetchOutcome) (endpoint method : jsstring)
  (body : option value) : Eff ApiEvent value :=
  let url := baseURL api ++ endpoint in
  etry
    (response <-
       eawait
         (ApiFetch url method (apiKey api)
            match body with
            | Some b => if truthy b then Some b else None
            | None => None
            end)
         match net with
         | NetworkError => inl FetchRejected
         | Response status b => inr (status, b)
         end ;;
     data <-
       eawait ApiJson
         match snd response with
         | NotJson => inl JsonRejected
         | Parsed v => inr v
         end ;;
     if negb (ok (fst response)) then
       message <- ([], errorMessage data (fst response)) ;;
       ethrow (ErrorOf message)
     else eret data)%eff
    (fun error =>
       (eemit (ApiConsoleError (js "API request failed: " ++ endpoint)) ;;
        ethrow error)%eff).

Definition getAccountInfo (api : t) (net : FetchOutcome) : Eff ApiEvent value :=
  request api net (js "/api/account/info") (js "GET") None.

Definition placeBuyOrder (api : t) (net : FetchOutcome) (symbol quantity : value)
  : Eff ApiEvent value :=
  request api net (js "/api/orders/buy/market") (js "POST")
    (Some (VObj [(js "symbol", symbol); (js "quantity", quantity)])).

(** [wsCallbacks]: the [Map] from event names to arrays of handlers. *)
Definition Registry := jsstring -> option (list Callback).

Definition noCallbacks : Registry := fun _ => None.

Definition on (reg : Registry) (event : jsstring) (callback : Callback) : Registry :=
  fun e =>
    if eqb_str e event then
      match reg event with
      | Some callbacks => Some (callbacks ++ [callback])
      | None => Some [callback]
      end
    else reg e.

Definition off (reg : Registry) (event : jsstring) (callback : Callback) : Registry :=
  fun e =>
    if eqb_str e event then
      match reg event with
      | Some callbacks => Some (removeFirst callback callbacks)
      | None => None
      end
    else reg e.

(** [emit(event, data)]: the calls made and the errors logged, in order. *)
Definition emit (throws : Callback -> bool) (reg : Registry) (event : jsstring)
  : list EmitEvent :=
  match reg event with
  | Some callbacks =>
      flat_map
        (fun callback =>
           Call callback :: (if throws callback then [CallbackError callback] else []))
        callbacks
  | None => []
  end.

(** The strings the template puts between the bars are those of its
    arguments. *)
Definition formatTradingEvent (exchange quantity price pair side : jsstring)
  : jsstring :=
  js "|" ++ exchange ++ js "|" ++ quantity ++ js "|" ++ price ++ js "|" ++ pair
  ++ js "|" ++ side ++ js "|".

(** [parseTradingEvent(eventData)]; [parseFloat] is the JavaScript
    function. *)
Definition parseTradingEvent (parseFloat : jsstring -> float) (eventData : jsstring)
  : Thrown + TradingEvent :=
  match splitOn bar eventData with
  | [_; p1; p2; p3; p4; p5] =>
      inr (Build_TradingEvent p1 (parseFloat p2) (parseFloat p3) p4 p5)
  | _ => inl (ErrorOf (VStr (js "Invalid event format")))
  end.

End TradingAPI.

(** ** [frontend_integration/useTradingAPI.js] *)

(** The state of [useAccountInfo]; [useTrading] has the last two. *)
Record HookState := {
  accountInfo : value;
  loading : bool;
  error : option Thrown
}.

Definition initialHook : HookState := {|
  accountInfo := VNull;
  loading := false;
  error := None
|}.

Definition applyHook (h : HookState) (e : ApiEvent) : HookState :=
  match e with
  | SetLoading b => Build_HookState (accountInfo h) b (error h)
  | SetError err => Build_HookState (accountInfo h) (loading h) err
  | SetAccountInfo info => Build_HookState info (loading h) (error h)
  | _ => h
  end.

Definition commitHook (h : HookState) (t : list ApiEvent) : HookState :=
  fold_left applyHook t h.

(** [!apiKey] for a key that is [undefined] or a string. *)
Definition noKey (key : option jsstring) : bool :=
  match key with
  | Some k => eqb_str k []
  | None => true
  end.

Definition keyOf (key : option jsstring) : jsstring :=
  match key with Some k => k | None => [] end.

(** [result.data] *)
Definition dataOf (result : value) : Eff ApiEvent value :=
  ([], match getProp result (js "data") with
       | Some d => inr d
       | None => inl TypeErrorThrown
       end).

(** [new TradingAPI(apiKey)] in the hooks' file.  The file neither
    imports nor defines [TradingAPI]: the name is looked up as a global,
    which exists only where the SDK was loaded as a plain script (it then
    sets [window.TradingAPI]).  [bound] tells whether it exists; where it
    does not, the expression throws a [ReferenceError]. *)
Definition newTradingAPI (bound : bool) (key : option jsstring)
  : Eff ApiEvent TradingAPI.t :=
  if bound then eret (TradingAPI.Build_t (keyOf key) TradingAPI.defaultBaseURL)
  else ethrow ReferenceErrorThrown.

(** [fetchAccountInfo] of [useAccountInfo]. *)
Definition fetchAccountInfo (bound : bool) (key : option jsstring)
  (net : FetchOutcome) : Eff ApiEvent unit :=
  if noKey key then eret tt
  else
    (eemit (SetLoading true) ;;
     eemit (SetError None) ;;
     efinally
       (etry
          (api <- newTradingAPI bound key ;;
           result <- TradingAPI.getAccountInfo api net ;;
           info <- dataOf result ;;
           eemit (SetAccountInfo info))
          (fun err => eemit (SetError (Some err))))
       [SetLoading false])%eff.

(** [placeBuyOrder] of [useTrading]; it returns [undefined] without a key. *)
Definition hookPlaceBuyOrder (bound : bool) (key : option jsstring)
  (net : FetchOutcome) (symbol quantity : value) : Eff ApiEvent value :=
  if noKey key then eret VUndefined
  else
    (eemit (SetLoading true) ;;
     eemit (SetError None) ;;
     efinally
       (etry
          (api <- newTradingAPI bound key ;;
           result <- TradingAPI.placeBuyOrder api net symbol quantity ;;
           dataOf result)
          (fun err => eemit (SetError (Some err)) ;; ethrow err))
       [SetLoading false])%eff.

(** ** Reading the effects of the SDK *)

Definition hasBar (s : jsstring) : bool := existsb (N.eqb bar) s.

(** The handlers called, in order. *)
Definition calledOf (t : list EmitEvent) : list Callback :=
  flat_map (fun e => match e with Call c => [c] | CallbackError _ => [] end) t.

(** The handlers whose error was logged, in order. *)
Definition failedOf (t : list EmitEvent) : list Callback :=
  flat_map (fun e => match e with CallbackError c => [c] | Call _ => [] end) t.

Definition sampleApi : TradingAPI.t :=
  TradingAPI.Build_t (js "key-1") TradingAPI.defaultBaseURL.

Definition isHookSetter (e : ApiEvent) : bool :=
  match e with
  | SetLoading _ | SetError _ | SetAccountInfo _ => true
  | _ => false
  end.

(** * Properties *)

(** ** Strings and the token filter *)

Lemma eqb_str_true (a b : jsstring) : eqb_str a b = true <-> a = b.
Proof.
  revert b; induction a as [|x a IH]; intros [|y b]; simpl;
    try (split; [discriminate | discriminate]); try tauto.
  rewrite andb_true_iff, N.eqb_eq, IH.
  split; [intros [-> ->]; reflexivity | intros H; inversion H; auto].
Qed.

Lemma eqb_str_refl (a : jsstring) : eqb_str a a = true.
Proof. apply eqb_str_true; reflexivity. Qed.

Lemma isPrefix_true (p s : jsstring) :
  isPrefix p s = true <-> exists post, s = p ++ post.
Proof.
  revert s; induction p as [|x p IH]; intros s; simpl.
  - split; [intros _; exists s; reflexivity | reflexivity].
  - destruct s as [|y s].
    + split; [discriminate | intros [post H]; discriminate].
    + rewrite andb_true_iff, N.eqb_eq, IH. split.
      * intros [-> [post ->]]. exists post. reflexivity.
      * intros [post H]. inversion H; subst. split; [reflexivity | eauto].
Qed.

Lemma includes_true (s needle : jsstring) :
  includes s needle = true <-> Substring needle s.
Proof.
  unfold Substring. induction s as [|a s IH]; simpl.
  - rewrite orb_false_r, isPrefix_true. split.
    + intros [post H]. exists [], post. exact H.
    + intros [pre [post H]]. destruct pre; [|discriminate].
      exists post. exact H.
  - rewrite orb_true_iff, isPrefix_true, IH. split.
    + intros [[post H] | [pre [post H]]].
      * exists [], post. exact H.
      * exists (a :: pre), post. simpl. rewrite H. reflexivity.
    + intros [[|x pre] [post H]].
      * left. exists post. exact H.
      * right. inversion H; subst. exists pre, post. reflexivity.
Qed.

Lemma Subseq_filter {A : Type} (f : A -> bool) (l : list A) :
  Subseq (List.filter f l) l.
Proof.
  induction l as [|x l IH]; simpl.
  - constructor.
  - destruct (f x); constructor; exact IH.
Qed.

(** C3. For every search term [s], [filteredTokens] is a subsequence of
    the four-token list in its original order and holds exactly the tokens
    whose lower-cased name contains the lower-cased [s] as a substring; the
    empty term gives the whole list, and ["us"] gives [[USDC; USDT]].
    [toLowerCase] is any function that lower-cases ASCII strings the ASCII
    way, as the JavaScript one does. *)
Theorem filteredTokens_spec (rt : Runtime)
  (Hlower : forall s, isAscii s = true -> toLowerCase rt s = asciiLower s)
  (s : jsstring) :
  Subseq (filteredTokens rt s) tokens /\
  (forall token,
      In token (filteredTokens rt s) <->
      In token tokens /\
      Substring (toLowerCase rt s) (toLowerCase rt (Token.name token))) /\
  filteredTokens rt (js "") = tokens /\
  filteredTokens rt (js "us") = [USDC; USDT].
Proof.
  assert (Hcompute : forall term, isAscii term = true ->
            filteredTokens rt term =
            List.filter
              (fun token =>
                 includes (asciiLower (Token.name token)) (asciiLower term))
              tokens).
  { intros term Hterm. unfold filteredTokens, tokens. cbn [List.filter].
    rewrite (Hlower term Hterm).
    rewrite !(Hlower _ (eq_refl : isAscii (Token.name ETH) = true)).
    rewrite !(Hlower _ (eq_refl : isAscii (Token.name USDC) = true)).
    rewrite !(Hlower _ (eq_refl : isAscii (Token.name USDT) = true)).
    rewrite !(Hlower _ (eq_refl : isAscii (Token.name LINK) = true)).
    reflexivity. }
  split; [apply Subseq_filter|].
  split.
  - intros token. unfold filteredTokens.
    rewrite filter_In, includes_true. reflexivity.
  - split; rewrite Hcompute by reflexivity; reflexivity.
Qed.

Lemma filteredTokens_spec_witness :
  Subseq (filteredTokens sampleRuntime (js "iN")) tokens /\
  (forall token,
      In token (filteredTokens sampleRuntime (js "iN")) <->
      In token tokens /\
      Substring (toLowerCase sampleRuntime (js "iN"))
        (toLowerCase sampleRuntime (Token.name token))) /\
  filteredTokens sampleRuntime (js "") = tokens /\
  filteredTokens sampleRuntime (js "us") = [USDC; USDT].
Proof.
  apply (filteredTokens_spec sampleRuntime).
  intros s _. reflexivity.
Defined.

(** ** Direction, presets and the shared search box *)

(** C4. [handleSwap] (the specification's [invertDirection]) applied twice
    gives back the state it started from, whole; applied once, each token
    object moves to the other role as it is, its [balance] included. *)
Theorem handleSwap_involutive (rt : Runtime) (st : State) :
  step rt (step rt st ClickInvert) ClickInvert = st /\
  fromToken (step rt st ClickInvert) = toToken st /\
  toToken (step rt st ClickInvert) = fromToken st /\
  Token.balance (fromToken (step rt st ClickInvert)) = Token.balance (toToken st) /\
  Token.balance (toToken (step rt st ClickInvert)) = Token.balance (fromToken st).
Proof. destruct st; repeat split. Qed.

Lemma label_inj (p q : Preset) : label p = label q -> p = q.
Proof. destruct p, q; intros H; try reflexivity; discriminate H. Qed.

Lemma active_after_preset (rt : Runtime) (st : State) (p r : Preset) :
  active (step rt st (ClickPreset p)) r = true <-> r = p.
Proof.
  unfold active, step, handler, commit. simpl.
  rewrite eqb_str_true. split.
  - intros H. symmetry. apply label_inj. exact H.
  - intros ->. reflexivity.
Qed.

(** C9. For distinct presets [P] and [Q], clicking [P] and then [Q] leaves
    the [active] class on the button of [Q] and on no other; clicking [P]
    twice leaves it on the button of [P] and on no other. *)
Theorem preset_selection_exclusive (rt : Runtime) (st : State) (P Q : Preset)
  (HPQ : P <> Q) :
  (forall R, active (run rt st [ClickPreset P; ClickPreset Q]) R = true <-> R = Q) /\
  (forall R, active (run rt st [ClickPreset P; ClickPreset P]) R = true <-> R = P).
Proof.
  split; intros R; unfold run; simpl; apply active_after_preset.
Qed.

Lemma preset_selection_exclusive_witness :
  (forall R, active (run sampleRuntime initialState [ClickPreset P25; ClickPreset P75]) R = true
             <-> R = P75) /\
  (forall R, active (run sampleRuntime initialState [ClickPreset P25; ClickPreset P25]) R = true
             <-> R = P25).
Proof.
  apply (preset_selection_exclusive sampleRuntime initialState (P := P25) (Q := P75)).
  discriminate.
Defined.

(** C10. Both dropdowns read the one [searchTerm]: after any sequence of
    actions their search boxes show the same text and their lists the same
    rows, and a text typed into either box filters both lists by it. *)
Theorem dropdowns_share_search (rt : Runtime) (st : State) (actions : list Action) :
  searchValue (fromDropdown rt (run rt st actions)) =
  searchValue (toDropdown rt (run rt st actions)) /\
  rows (fromDropdown rt (run rt st actions)) =
  rows (toDropdown rt (run rt st actions)) /\
  (forall text,
      let typedFrom := step rt (run rt st actions) (TypeFromSearch text) in
      let typedTo := step rt (run rt st actions) (TypeToSearch text) in
      searchValue (fromDropdown rt typedFrom) = text /\
      searchValue (toDropdown rt typedFrom) = text /\
      rows (fromDropdown rt typedFrom) = filteredTokens rt text /\
      rows (toDropdown rt typedFrom) = filteredTokens rt text /\
      searchValue (fromDropdown rt typedTo) = text /\
      searchValue (toDropdown rt typedTo) = text /\
      rows (fromDropdown rt typedTo) = filteredTokens rt text /\
      rows (toDropdown rt typedTo) = filteredTokens rt text).
Proof.
  repeat split.
Qed.

(** ** Connecting without a wallet *)

(** C7. Without [window.ethereum], [handleConnectWallet] shows the alert
    and returns: this is its whole trace, so nothing asynchronous comes
    before the check and no balance is read; signer, provider and address,
    like every other state variable, stay as they were. *)
Theorem handleConnectWallet_no_wallet (rt : Runtime) (w : World) (st : State)
  (Hnone : ethereum w = false) :
  handleConnectWallet rt w st = ([Alert (js "MetaMask not found!")], Some tt) /\
  existsb isAsync (trace (handleConnectWallet rt w st)) = false /\
  step rt st (ClickConnect w) = st /\
  signer (step rt initialState (ClickConnect w)) = None /\
  provider (step rt initialState (ClickConnect w)) = None /\
  address (step rt initialState (ClickConnect w)) = None.
Proof.
  unfold step, handler, handleConnectWallet. rewrite Hnone. simpl.
  repeat split.
Qed.

Lemma handleConnectWallet_no_wallet_witness :
  handleConnectWallet sampleRuntime (withoutWallet sampleWorld) initialState =
    ([Alert (js "MetaMask not found!")], Some tt) /\
  existsb isAsync
    (trace (handleConnectWallet sampleRuntime (withoutWallet sampleWorld) initialState)) = false /\
  step sampleRuntime initialState (ClickConnect (withoutWallet sampleWorld)) = initialState /\
  signer (step sampleRuntime initialState (ClickConnect (withoutWallet sampleWorld))) = None /\
  provider (step sampleRuntime initialState (ClickConnect (withoutWallet sampleWorld))) = None /\
  address (step sampleRuntime initialState (ClickConnect (withoutWallet sampleWorld))) = None.
Proof.
  apply (handleConnectWallet_no_wallet sampleRuntime (withoutWallet sampleWorld) initialState).
  reflexivity.
Defined.

(** ** The aggregation request *)

Lemma aggregate_parsed (status : N) (v : value) (a b c : jsstring) :
  aggregate (Response status (Parsed v)) a b c =
  ([Fetch (js "") (Build_Payload a b c); ResponseJson], Some v).
Proof. reflexivity. Qed.

Lemma aggregate_not_json (status : N) (a b c : jsstring) :
  aggregate (Response status NotJson) a b c =
  ([Fetch (js "") (Build_Payload a b c); ResponseJson; ConsoleError (js "Hata:")],
   Some VUndefined).
Proof. reflexivity. Qed.

Lemma aggregate_network_error (a b c : jsstring) :
  aggregate NetworkError a b c =
  ([Fetch (js "") (Build_Payload a b c); ConsoleError (js "Hata:")],
   Some VUndefined).
Proof. reflexivity. Qed.

(** C1, at the input where the code departs from it.  The backend answers
    HTTP 500 with the JSON body [{}]: [aggregate] never looks at the status,
    logs nothing and resolves to the body, and [handleFinishSwap] takes its
    success branch, storing the empty mapping and playing the sound.  (A
    body that is not JSON, and a network failure, do give [undefined].) *)
Theorem aggregate_http_500_is_success :
  ok 500 = false /\
  aggregate (Response 500 (Parsed (VObj []))) (Token.address ETH) (js "1")
    (Token.address USDT) =
    ([Fetch (js "") (Build_Payload (Token.address ETH) (js "1") (Token.address USDT));
      ResponseJson],
     Some (VObj [])) /\
  trace (handleFinishSwap
           (withBackend sampleWorld (Response 500 (Parsed (VObj [])))) initialState) =
    [SetIsRoute true;
     Fetch (js "") (Build_Payload (Token.address ETH) (js "1") (Token.address USDT));
     ResponseJson; SetData (VObj []); ConsoleLog (js "DATA1"); PlayAudio] /\
  aggregationFailed
    (withBackend sampleWorld (Response 500 (Parsed (VObj [])))) initialState = false /\
  data1 (step sampleRuntime routedState
           (ClickSwap (withBackend sampleWorld (Response 500 (Parsed (VObj [])))))) =
    VObj [].
Proof. repeat split. Qed.

Lemma handleFinishSwap_failed (w : World) (st : State) :
  aggregationFailed w st = true ->
  exists payload log,
    trace (handleFinishSwap w st) =
    SetIsRoute true :: Fetch (js "") payload :: log /\
    forallb (fun e => negb (isSetData e || isFetch e || isSetIsRoute e)) log = true /\
    commit st (trace (handleFinishSwap w st)) = applySetter st (SetIsRoute true).
Proof.
  unfold aggregationFailed, aggregated, handleFinishSwap.
  destruct (backend w) as [|status [|v]]; simpl.
  - intros _. eexists _, _. repeat split.
  - intros _. eexists _, _. repeat split.
  - destruct (truthy v); [discriminate|]. intros _.
    eexists _, _. repeat split.
Qed.

(** C5. When the aggregation fails ([aggregate] resolves to [undefined]
    or to another falsy value), [data1] after [handleFinishSwap] is [data1]
    before it, whatever it was: no [setData] is called, and one request is
    made. *)
Theorem failed_aggregation_keeps_route (rt : Runtime) (w : World) (st : State)
  (Hfail : aggregationFailed w st = true) :
  data1 (step rt st (ClickSwap w)) = data1 st /\
  existsb isSetData (trace (handleFinishSwap w st)) = false /\
  List.length (List.filter isFetch (trace (handleFinishSwap w st))) = 1.
Proof.
  destruct (handleFinishSwap_failed w st Hfail) as (payload & log & Ht & Hlog & Hst).
  unfold step, handler. rewrite Hst, Ht. simpl.
  split; [reflexivity|].
  clear Ht Hst. induction log as [|e log IH]; simpl in *; [auto|].
  apply andb_true_iff in Hlog. destruct Hlog as [He Hlog].
  destruct (IH Hlog) as [IH1 IH2].
  destruct e; simpl in *; try discriminate; auto.
Qed.

Lemma failed_aggregation_keeps_route_witness :
  data1 (step sampleRuntime routedState (ClickSwap sampleWorld)) = sampleRoute /\
  existsb isSetData (trace (handleFinishSwap sampleWorld routedState)) = false /\
  List.length (List.filter isFetch (trace (handleFinishSwap sampleWorld routedState))) = 1.
Proof.
  apply (failed_aggregation_keeps_route sampleRuntime sampleWorld routedState).
  reflexivity.
Defined.

(** ** The stored route and the in-route flag *)

Lemma Emits_ret {A : Type} (P : Event -> Prop) (a : A) : Emits P (ret a).
Proof. constructor. Qed.

Lemma Emits_emit (P : Event -> Prop) (e : Event) : P e -> Emits P (emit e).
Proof. intros H. repeat constructor. exact H. Qed.

Lemma Emits_await {A : Type} (P : Event -> Prop) (e : Event) (r : option A) :
  P e -> Emits P (await e r).
Proof. intros H. repeat constructor. exact H. Qed.

Lemma Emits_orThrow {A : Type} (P : Event -> Prop) (r : option A) :
  Emits P (orThrow r).
Proof. constructor. Qed.

Lemma Emits_bind {A B : Type} (P : Event -> Prop) (m : M A) (k : A -> M B) :
  Emits P m -> (forall a, Emits P (k a)) -> Emits P (bind m k).
Proof.
  unfold Emits, trace, bind. destruct m as [t [a|]]; simpl; intros Hm Hk.
  - specialize (Hk a). destruct (k a) as [t' r]. simpl in *.
    apply Forall_app. split; assumption.
  - exact Hm.
Qed.

Lemma Emits_try {A : Type} (P : Event -> Prop) (m h : M A) :
  Emits P m -> Emits P h -> Emits P (try_ m h).
Proof.
  unfold Emits, trace, try_. destruct m as [t [a|]]; simpl; intros Hm Hh.
  - exact Hm.
  - destruct h as [t' r]. simpl in *. apply Forall_app. split; assumption.
Qed.

Lemma Emits_detach {A : Type} (P : Event -> Prop) (m : M A) :
  Emits P m -> Emits P (detach m).
Proof. intros H. exact H. Qed.

(** Splits a handler body along its binds, tests and matches. *)
Ltac emits :=
  repeat match goal with
    | |- Emits _ (ret _) => apply Emits_ret
    | |- Emits _ (orThrow _) => apply Emits_orThrow
    | |- Emits _ (emit _) => apply Emits_emit; unfold keepsFlag; discriminate
    | |- Emits _ (await _ _) => apply Emits_await; unfold keepsFlag; discriminate
    | |- Emits _ (detach _) => apply Emits_detach
    | |- Emits _ (try_ _ _) => apply Emits_try
    | |- Emits _ (bind _ _) => apply Emits_bind; [|intros]
    | |- Emits _ (if ?b then _ else _) => destruct b
    | |- Emits _ (match ?x with _ => _ end) => destruct x
    end.

Lemma getTokenBalance_keeps_flag (rt : Runtime) (w : World) (st : State)
  (tokenAddress fromOrTo : jsstring) :
  Emits keepsFlag (getTokenBalance rt w st tokenAddress fromOrTo).
Proof. unfold getTokenBalance, readBalance, readErc20. emits. Qed.

Lemma handler_keeps_flag (rt : Runtime) (st : State) (a : Action) :
  Emits keepsFlag (handler rt st a).
Proof.
  destruct a; unfold handler, handleSwap, handleFinishSwap, aggregate, fetch, json,
    handleConnectWallet.
  all: try (emits; fail).
  emits; apply getTokenBalance_keeps_flag.
Qed.

Lemma commit_keeps_flag (t : list Event) (st : State) :
  Forall keepsFlag t -> isRoute st = true -> isRoute (commit st t) = true.
Proof.
  unfold commit. revert st. induction t as [|e t IH]; intros st Ht Hst; simpl.
  - exact Hst.
  - inversion Ht as [|e' t' He Ht']; subst. apply IH; [exact Ht'|].
    destruct e; simpl; try exact Hst.
    destruct b; [reflexivity | exfalso; apply He; reflexivity].
Qed.

Lemma run_keeps_flag (rt : Runtime) (actions : list Action) (st : State) :
  isRoute st = true -> isRoute (run rt st actions) = true.
Proof.
  unfold run. revert st. induction actions as [|a actions IH]; intros st Hst; simpl.
  - exact Hst.
  - apply IH. unfold step. apply commit_keeps_flag; [|exact Hst].
    apply handler_keeps_flag.
Qed.

Lemma commit_without_setIsRoute (t : list Event) (st : State) :
  existsb isSetIsRoute t = false -> isRoute (commit st t) = isRoute st.
Proof.
  unfold commit. revert st. induction t as [|e t IH]; intros st Ht; simpl in *.
  - reflexivity.
  - apply orb_false_iff in Ht. destruct Ht as [He Ht].
    rewrite (IH _ Ht). destruct e; simpl in *; try reflexivity; discriminate.
Qed.

Lemma handleFinishSwap_trace (w : World) (st : State) :
  exists rest,
    trace (handleFinishSwap w st) =
    SetIsRoute true ::
    Fetch (js "")
      (Build_Payload (Token.address (fromToken st)) (js "1") (Token.address (toToken st)))
    :: rest /\
    existsb isSetIsRoute rest = false /\ existsb isFetch rest = false.
Proof.
  unfold handleFinishSwap.
  destruct (backend w) as [|status [|v]]; simpl.
  - eexists. repeat split.
  - eexists. repeat split.
  - destruct (truthy v); simpl; [destruct (audioPlays w)|]; simpl;
      eexists; repeat split.
Qed.

(** C6 as stated fails: the backend answers with a route; [setIsRoute] is
    called before the request and never after it, and the flag stays
    [true] through everything the user does afterwards. *)
Lemma isRoute_not_updated_after_fetch :
  existsb isSetIsRoute
    (beforeFetch
       (trace (handleFinishSwap
                 (withBackend sampleWorld (Response 200 (Parsed sampleRoute)))
                 initialState))) = true /\
  existsb isSetIsRoute
    (afterFetch
       (trace (handleFinishSwap
                 (withBackend sampleWorld (Response 200 (Parsed sampleRoute)))
                 initialState))) = false /\
  (forall actions,
      isRoute
        (run sampleRuntime initialState
           (ClickSwap (withBackend sampleWorld (Response 200 (Parsed sampleRoute)))
            :: actions)) = true).
Proof.
  repeat split.
  intros actions. apply (run_keeps_flag sampleRuntime actions). reflexivity.
Qed.

(** C6, amended.  [handleFinishSwap] calls [setIsRoute(true)] first, before
    the request is made, and does not call [setIsRoute] again; the flag is
    [true] once the handler has run and stays [true] whatever follows:
    nothing in the component clears it. *)
Theorem isRoute_set_before_fetch_never_cleared (rt : Runtime) (w : World) (st : State) :
  (exists payload rest,
      trace (handleFinishSwap w st) = SetIsRoute true :: Fetch (js "") payload :: rest /\
      existsb isSetIsRoute rest = false) /\
  isRoute (step rt st (ClickSwap w)) = true /\
  (forall actions, isRoute (run rt (step rt st (ClickSwap w)) actions) = true).
Proof.
  assert (Hflag : isRoute (step rt st (ClickSwap w)) = true).
  { unfold step, handler.
    destruct (handleFinishSwap_trace w st) as (rest & Ht & Hrest & _).
    rewrite Ht.
    change (isRoute
              (commit (applySetter (applySetter st (SetIsRoute true)) (Fetch (js "")
                 (Build_Payload (Token.address (fromToken st)) (js "1")
                    (Token.address (toToken st))))) rest) = true).
    rewrite (commit_without_setIsRoute rest _ Hrest). reflexivity. }
  split; [|split].
  - destruct (handleFinishSwap_trace w st) as (rest & Ht & Hrest & _).
    eexists _, rest. split; [exact Ht | exact Hrest].
  - exact Hflag.
  - intros actions. apply run_keeps_flag. exact Hflag.
Qed.

(** ** Reading a balance *)

(** C8 as stated fails: for the USDC address, with a wallet that returns
    no account, [getTokenBalance] logs "No address found" and returns
    without a single contract read. *)
Lemma getTokenBalance_without_account_reads_nothing :
  Token.address USDC <> nativeAddress /\
  trace (getTokenBalance sampleRuntime (withAccounts sampleWorld (Some []))
           initialState (Token.address USDC) (js "from")) =
    [NewBrowserProvider; Send (js "eth_requestAccounts");
     ConsoleError (js "No address found")] /\
  List.length
    (contractReads
       (trace (getTokenBalance sampleRuntime (withAccounts sampleWorld (Some []))
                 initialState (Token.address USDC) (js "from")))) <> 3.
Proof. repeat split; discriminate. Qed.

(** C8, amended.  For the native address [getTokenBalance] makes no
    contract read, whatever the world; with a wallet and an account it
    reads the native balance of that account and formats it with 18
    decimals.  For another address, with a wallet, an account and an
    address [getAddress] accepts, it makes exactly the three reads
    [balanceOf], [decimals], [symbol], all before it suspends, and when
    they succeed it formats the raw balance with the decimals it fetched.
    Without a wallet, without an account, or for an address [getAddress]
    rejects, it makes no contract read. *)
Theorem getTokenBalance_reads (rt : Runtime) (w : World) (st : State)
  (fromOrTo : jsstring) :
  contractReads (trace (getTokenBalance rt w st nativeAddress fromOrTo)) = [] /\
  (forall accounts userAddress rawBalance,
      ethereum w = true ->
      requestAccounts w = Some accounts ->
      firstAccount accounts = Some userAddress ->
      nativeBalance w userAddress = Some rawBalance ->
      trace (getTokenBalance rt w st nativeAddress fromOrTo) =
      [NewBrowserProvider; Send (js "eth_requestAccounts"); GetBalance userAddress;
       if eqb_str fromOrTo (js "from")
       then SetFromToken (Token.withBalance (fromToken st) (formatUnits rt rawBalance 18))
       else SetToToken (Token.withBalance (toToken st) (formatUnits rt rawBalance 18));
       ConsoleLog (js "ETH" ++ js " Balance:")]) /\
  (forall tokenAddress accounts userAddress contractAddress,
      tokenAddress <> nativeAddress ->
      ethereum w = true ->
      requestAccounts w = Some accounts ->
      firstAccount accounts = Some userAddress ->
      getAddress rt tokenAddress = Some contractAddress ->
      contractReads (trace (getTokenBalance rt w st tokenAddress fromOrTo)) =
      [Issue (BalanceOf contractAddress userAddress); Issue (Decimals contractAddress);
       Issue (Symbol contractAddress)] /\
      contractReads (beforeAwaitAll (trace (getTokenBalance rt w st tokenAddress fromOrTo))) =
      [Issue (BalanceOf contractAddress userAddress); Issue (Decimals contractAddress);
       Issue (Symbol contractAddress)] /\
      (forall rawBalance dec fetchedSymbol,
          balanceOf w contractAddress userAddress = Some rawBalance ->
          decimals w contractAddress = Some dec ->
          symbol w contractAddress = Some fetchedSymbol ->
          trace (getTokenBalance rt w st tokenAddress fromOrTo) =
          [NewBrowserProvider; Send (js "eth_requestAccounts");
           Issue (BalanceOf contractAddress userAddress); Issue (Decimals contractAddress);
           Issue (Symbol contractAddress); AwaitAll 3;
           if eqb_str fromOrTo (js "from")
           then SetFromToken (Token.withBalance (fromToken st) (formatUnits rt rawBalance dec))
           else SetToToken (Token.withBalance (toToken st) (formatUnits rt rawBalance dec));
           ConsoleLog (fetchedSymbol ++ js " Balance:")])) /\
  (forall tokenAddress,
      ethereum w = false \/
      requestAccounts w = None \/
      (exists accounts, requestAccounts w = Some accounts /\ firstAccount accounts = None) \/
      getAddress rt tokenAddress = None ->
      contractReads (trace (getTokenBalance rt w st tokenAddress fromOrTo)) = []).
Proof.
  assert (Hnative :
            contractReads (trace (getTokenBalance rt w st nativeAddress fromOrTo)) = []).
  { unfold getTokenBalance, readBalance. rewrite eqb_str_refl.
    destruct (ethereum w); [|reflexivity].
    destruct (requestAccounts w) as [accounts|]; [|reflexivity].
    cbn [negb bind emit await app].
    destruct (firstAccount accounts) as [userAddress|]; [|reflexivity].
    cbn [bind await]. destruct (nativeBalance w userAddress); [|reflexivity].
    cbn [bind ret app]. destruct (eqb_str fromOrTo (js "from")); reflexivity. }
  split; [exact Hnative|]. split; [|split].
  - intros accounts userAddress rawBalance Hw Hacc Huser Hraw.
    unfold getTokenBalance, readBalance. rewrite eqb_str_refl, Hw, Hacc.
    cbn [negb bind emit await app]. rewrite Huser.
    cbn [bind await]. rewrite Hraw.
    cbn [bind ret app]. unfold formatEther.
    destruct (eqb_str fromOrTo (js "from")); reflexivity.
  - intros tokenAddress accounts userAddress contractAddress Hother Hw Hacc Huser Hchk.
    assert (Hneq : eqb_str tokenAddress nativeAddress = false).
    { destruct (eqb_str tokenAddress nativeAddress) eqn:E; [|reflexivity].
      apply eqb_str_true in E. contradiction. }
    unfold getTokenBalance, readBalance, readErc20. rewrite Hneq, Hw, Hacc.
    cbn [negb bind emit await app]. rewrite Huser, Hchk.
    cbn [bind emit await orThrow try_ app].
    destruct (balanceOf w contractAddress userAddress) as [rawBalance|];
      [destruct (decimals w contractAddress) as [dec|];
       [destruct (symbol w contractAddress) as [fetchedSymbol|]|]|].
    + cbn [bind ret try_ app].
      destruct (eqb_str fromOrTo (js "from")); repeat split;
        intros ? ? ? H1 H2 H3; inversion H1; inversion H2; inversion H3; reflexivity.
    + repeat split. discriminate.
    + repeat split. discriminate.
    + repeat split. discriminate.
  - intros tokenAddress Hcase.
    destruct (eqb_str tokenAddress nativeAddress) eqn:E.
    { apply eqb_str_true in E. subst. exact Hnative. }
    unfold getTokenBalance, readBalance. rewrite E.
    destruct Hcase as [Hw | [Hacc | [[accounts [Hacc Huser]] | Hchk]]].
    + rewrite Hw. reflexivity.
    + destruct (ethereum w); [|reflexivity]. rewrite Hacc. reflexivity.
    + destruct (ethereum w); [|reflexivity]. rewrite Hacc.
      cbn [negb bind emit await app]. rewrite Huser. reflexivity.
    + destruct (ethereum w); [|reflexivity].
      destruct (requestAccounts w) as [accounts|]; [|reflexivity].
      cbn [negb bind emit await app].
      destruct (firstAccount accounts) as [userAddress|]; [|reflexivity].
      rewrite Hchk. reflexivity.
Qed.

Lemma getTokenBalance_reads_witness :
  contractReads
    (trace (getTokenBalance sampleRuntime sampleWorld initialState nativeAddress (js "from"))) = [] /\
  trace (getTokenBalance sampleRuntime sampleWorld initialState nativeAddress (js "from")) =
    [NewBrowserProvider; Send (js "eth_requestAccounts"); GetBalance sampleAccount;
     SetFromToken (Token.withBalance ETH (formatUnits sampleRuntime 2000000000000000000 18));
     ConsoleLog (js "ETH Balance:")] /\
  contractReads
    (trace (getTokenBalance sampleRuntime sampleWorld initialState (Token.address USDC) (js "from"))) =
    [Issue (BalanceOf (Token.address USDC) sampleAccount); Issue (Decimals (Token.address USDC));
     Issue (Symbol (Token.address USDC))] /\
  trace (getTokenBalance sampleRuntime sampleWorld initialState (Token.address USDC) (js "from")) =
    [NewBrowserProvider; Send (js "eth_requestAccounts");
     Issue (BalanceOf (Token.address USDC) sampleAccount); Issue (Decimals (Token.address USDC));
     Issue (Symbol (Token.address USDC)); AwaitAll 3;
     SetFromToken (Token.withBalance ETH (formatUnits sampleRuntime 1500000 6));
     ConsoleLog (js "USDC Balance:")] /\
  contractReads
    (trace (getTokenBalance sampleRuntime sampleWorld initialState (js "ETH") (js "from"))) = [].
Proof.
  destruct (getTokenBalance_reads sampleRuntime sampleWorld initialState (js "from"))
    as (Hnative & Hether & Herc20 & Hnone).
  split; [exact Hnative|].
  split; [apply (Hether [sampleAccount] sampleAccount 2000000000000000000%Z); reflexivity|].
  destruct (Herc20 (Token.address USDC) [sampleAccount] sampleAccount (Token.address USDC))
    as (Hreads & _ & Htrace); try reflexivity; try discriminate.
  split; [exact Hreads|].
  split; [apply (Htrace 1500000%Z 6%Z (js "USDC")); reflexivity|].
  apply Hnone. right. right. right. reflexivity.
Defined.

(** * Further properties of the component *)

(** ** Traces and commits *)

Lemma trace_bind {A B : Type} (m : M A) (k : A -> M B) :
  trace (bind m k) =
  match snd m with
  | Some a => trace m ++ trace (k a)
  | None => trace m
  end.
Proof.
  unfold trace, bind. destruct m as [t [a|]]; simpl; [|reflexivity].
  destruct (k a); reflexivity.
Qed.

Lemma commit_app (t1 t2 : list Event) (st : State) :
  commit st (t1 ++ t2) = commit (commit st t1) t2.
Proof. unfold commit. apply fold_left_app. Qed.

(** An invariant that every effect of a trace keeps is kept by its commit. *)
Lemma commit_invariant (I : State -> Prop) (P : Event -> Prop) :
  (forall st e, I st -> P e -> I (applySetter st e)) ->
  forall t st, Forall P t -> I st -> I (commit st t).
Proof.
  intros Hstep t. unfold commit.
  induction t as [|e t IH]; intros st Ht Hst; simpl; [exact Hst|].
  inversion Ht; subst. apply IH; [assumption|]. apply Hstep; assumption.
Qed.

Lemma commit_no_setter (t : list Event) (st : State) :
  Forall (fun e => isSetter e = false) t -> commit st t = st.
Proof.
  intros Ht.
  apply (@commit_invariant (fun s => s = st) (fun e => isSetter e = false));
    [|exact Ht|reflexivity].
  intros s e Hs He. subst s.
  destruct st; destruct e; simpl in *; try reflexivity; discriminate.
Qed.

(** Like [emits], with the obligation on each effect left to [tac]. *)
Ltac emitsBy tac :=
  repeat match goal with
    | |- Emits _ (ret _) => apply Emits_ret
    | |- Emits _ (orThrow _) => apply Emits_orThrow
    | |- Emits _ (emit _) => apply Emits_emit; tac
    | |- Emits _ (await _ _) => apply Emits_await; tac
    | |- Emits _ (detach _) => apply Emits_detach
    | |- Emits _ (try_ _ _) => apply Emits_try
    | |- Emits _ (bind _ _) => apply Emits_bind; [|intros]
    | |- Emits _ (if ?b then _ else _) => destruct b eqn:?
    | |- Emits _ (match ?x with _ => _ end) => destruct x eqn:?
    end.

Lemma Forall_existsb_false {A : Type} (f : A -> bool) (l : list A) :
  Forall (fun x => f x = false) l <-> existsb f l = false.
Proof.
  induction l as [|x l IH]; simpl.
  - split; [reflexivity | constructor].
  - rewrite orb_false_iff, <- IH. split.
    + intros H. inversion H; subst. split; assumption.
    + intros [H1 H2]. constructor; assumption.
Qed.

(** ** Invariants of the reachable states *)

Lemma listed_withBalance (t : Token.t) (b : jsstring) :
  listed t -> listed (Token.withBalance t b).
Proof.
  intros [entry [Hin [Hn [Ha Hi]]]]. exists entry. split; [exact Hin|].
  repeat split; assumption.
Qed.

Lemma listed_entry (t : Token.t) : In t tokens -> listed t.
Proof. intros H. exists t. split; [exact H | repeat split]. Qed.

Lemma handler_carries_listed (rt : Runtime) (st : State) (a : Action) :
  listed (fromToken st) -> listed (toToken st) ->
  Emits carriesListed (handler rt st a).
Proof.
  intros Hfrom Hto.
  assert (Hrow : forall row token,
             nth_error (filteredTokens rt (searchTerm st)) row = Some token ->
             listed token).
  { intros row token H. apply nth_error_In in H.
    apply filter_In in H. apply listed_entry, H. }
  destruct a; unfold handler, handleSwap, handleFinishSwap, aggregate, fetch, json,
    handleConnectWallet, getTokenBalance, readBalance, readErc20, fromDropdown,
    toDropdown, rows.
  all: emitsBy ltac:(simpl; try exact I; eauto;
                     try (apply listed_withBalance; assumption)).
Qed.

Lemma run_invariant (I : State -> Prop) (rt : Runtime) :
  (forall st a, I st -> I (step rt st a)) ->
  forall actions st, I st -> I (run rt st actions).
Proof.
  intros Hstep actions. unfold run.
  induction actions as [|a actions IH]; intros st Hst; simpl; [exact Hst|].
  apply IH, Hstep, Hst.
Qed.

(** X1.  Whatever the user does, the tokens in the two roles are entries of the
    fixed list, with at most a [balance] added: name, address and icon are
    never altered, and no other token ever appears. *)
Theorem tokens_stay_listed (rt : Runtime) (actions : list Action) :
  listed (fromToken (run rt initialState actions)) /\
  listed (toToken (run rt initialState actions)).
Proof.
  apply (@run_invariant (fun st => listed (fromToken st) /\ listed (toToken st)) rt).
  - intros st a [Hfrom Hto]. unfold step.
    apply (@commit_invariant (fun st => listed (fromToken st) /\ listed (toToken st))
             carriesListed).
    + intros s e [H1 H2] He. destruct e; simpl in *; split; assumption.
    + apply handler_carries_listed; assumption.
    + split; assumption.
  - split; apply listed_entry; simpl; auto.
Qed.

Lemma handler_carries_truthy (rt : Runtime) (st : State) (a : Action) :
  Emits carriesTruthy (handler rt st a).
Proof.
  destruct a; unfold handler, handleSwap, handleFinishSwap, aggregate, fetch, json,
    handleConnectWallet, getTokenBalance, readBalance, readErc20.
  all: emitsBy ltac:(simpl; try exact I; try assumption).
Qed.

(** X2.  [data1] is truthy in every reachable state: it is the initial [{}] or
    a truthy value [aggregate] resolved to.  So the fallback of
    [data1 || {}] in the accordion is never taken, and the accordion shows
    the sample routes exactly when [data1] has no key. *)
Theorem data1_stays_truthy (rt : Runtime) (actions : list Action) :
  truthy (data1 (run rt initialState actions)) = true /\
  accordionBody (data1 (run rt initialState actions)) =
  match objectKeys (data1 (run rt initialState actions)) with
  | [] => SampleRoutes
  | _ :: _ => Legs (objectEntries (data1 (run rt initialState actions)))
  end.
Proof.
  assert (H : truthy (data1 (run rt initialState actions)) = true).
  { apply (@run_invariant (fun st => truthy (data1 st) = true) rt); [|reflexivity].
    intros st a Hst. unfold step.
    apply (@commit_invariant (fun st => truthy (data1 st) = true) carriesTruthy).
    - intros s e Hs He. destruct e; simpl in *; assumption.
    - apply handler_carries_truthy.
    - exact Hst. }
  split; [exact H|].
  unfold accordionBody. rewrite H.
  destruct (objectKeys (data1 (run rt initialState actions))); reflexivity.
Qed.

Lemma other_actions_leave_flag (rt : Runtime) (st : State) (a : Action) :
  isClickSwap a = false ->
  Emits (fun e => isSetIsRoute e = false) (handler rt st a).
Proof.
  destruct a; try discriminate; intros _;
    unfold handler, handleSwap, handleConnectWallet, getTokenBalance, readBalance,
      readErc20.
  all: emitsBy ltac:(reflexivity).
Qed.

Lemma other_actions_leave_route (rt : Runtime) (st : State) (a : Action) :
  isClickSwap a = false ->
  Emits (fun e => isSetData e = false) (handler rt st a).
Proof.
  destruct a; try discriminate; intros _;
    unfold handler, handleSwap, handleConnectWallet, getTokenBalance, readBalance,
      readErc20.
  all: emitsBy ltac:(reflexivity).
Qed.

Lemma isRoute_after_swap (rt : Runtime) (w : World) (st : State) :
  isRoute (step rt st (ClickSwap w)) = true.
Proof.
  unfold step, handler.
  destruct (handleFinishSwap_trace w st) as (rest & Ht & Hrest & _).
  rewrite Ht.
  change (SetIsRoute true :: Fetch (js "")
            (Build_Payload (Token.address (fromToken st)) (js "1")
               (Token.address (toToken st))) :: rest)
    with ([SetIsRoute true; Fetch (js "")
             (Build_Payload (Token.address (fromToken st)) (js "1")
                (Token.address (toToken st)))] ++ rest).
  rewrite commit_app, (commit_without_setIsRoute rest _ Hrest). reflexivity.
Qed.

Lemma isRoute_run (rt : Runtime) (actions : list Action) (st : State) :
  isRoute (run rt st actions) = isRoute st || existsb isClickSwap actions.
Proof.
  revert st. induction actions as [|a actions IH]; intros st.
  - simpl. rewrite orb_false_r. reflexivity.
  - change (run rt st (a :: actions)) with (run rt (step rt st a) actions).
    rewrite IH. simpl. destruct (isClickSwap a) eqn:Ha.
    + destruct a; try discriminate. rewrite isRoute_after_swap.
      rewrite orb_true_r. reflexivity.
    + unfold step. rewrite commit_without_setIsRoute; [reflexivity|].
      apply Forall_existsb_false. apply (other_actions_leave_flag rt st a Ha).
Qed.

Lemma data1_run_without_swap (rt : Runtime) (actions : list Action) (st : State) :
  existsb isClickSwap actions = false -> data1 (run rt st actions) = data1 st.
Proof.
  revert st. induction actions as [|a actions IH]; intros st Hn; [reflexivity|].
  simpl in Hn. apply orb_false_iff in Hn. destruct Hn as [Ha Hn].
  change (run rt st (a :: actions)) with (run rt (step rt st a) actions).
  rewrite (IH _ Hn). unfold step.
  apply (@commit_invariant (fun s => data1 s = data1 st)
           (fun e => isSetData e = false)); [| |reflexivity].
  - intros s e Hs He. destruct e; simpl in *; try assumption; discriminate.
  - apply (other_actions_leave_route rt st a Ha).
Qed.

(** X3.  The route accordion is shown exactly when "Swap" has been clicked at
    least once, whatever the request came to; until then [data1] is the
    initial empty mapping. *)
Theorem isRoute_iff_swap_clicked (rt : Runtime) (actions : list Action) :
  isRoute (run rt initialState actions) = existsb isClickSwap actions /\
  (existsb isClickSwap actions = false ->
   data1 (run rt initialState actions) = VObj [] /\
   routeAccordion (run rt initialState actions) = None).
Proof.
  split; [apply isRoute_run|]. intros Hnone.
  split; [apply (data1_run_without_swap rt actions initialState Hnone)|].
  unfold routeAccordion. rewrite isRoute_run, Hnone. reflexivity.
Qed.

Lemma isRoute_iff_swap_clicked_witness :
  data1 (run sampleRuntime initialState [ClickInvert; ClickPreset P50; ClickConnect sampleWorld]) =
    VObj [] /\
  routeAccordion
    (run sampleRuntime initialState [ClickInvert; ClickPreset P50; ClickConnect sampleWorld]) =
    None.
Proof.
  apply (isRoute_iff_swap_clicked sampleRuntime
           [ClickInvert; ClickPreset P50; ClickConnect sampleWorld]).
  reflexivity.
Defined.

(** C2.  After a successful aggregation whose result is the empty mapping,
    the stored state tells the attempt apart from every state in which no
    aggregation was ever attempted.  The handler stores the empty mapping
    in [data1], over whatever was there, and has set [isRoute]; in a state
    reached without a click on "Swap", [isRoute] is false.  So the route
    accordion, absent there, is shown here (with the sample routes), and
    the two states differ, now and after anything the user does next. *)
Theorem empty_route_distinguishable (rt : Runtime) (w : World) (status : N)
  (st : State) (never : list Action)
  (Hempty : backend w = Response status (Parsed (VObj [])))
  (Hnever : existsb isClickSwap never = false) :
  aggregationFailed w st = false /\
  List.filter isSetData (trace (handleFinishSwap w st)) = [SetData (VObj [])] /\
  data1 (step rt st (ClickSwap w)) = VObj [] /\
  isRoute (step rt st (ClickSwap w)) = true /\
  isRoute (run rt initialState never) = false /\
  routeAccordion (step rt st (ClickSwap w)) = Some SampleRoutes /\
  routeAccordion (run rt initialState never) = None /\
  (forall later,
      run rt (step rt st (ClickSwap w)) later <> run rt initialState never).
Proof.
  assert (Hstep : step rt st (ClickSwap w) =
                  applySetter (applySetter st (SetIsRoute true)) (SetData (VObj []))).
  { unfold step, handler, handleFinishSwap. rewrite Hempty. simpl.
    destruct (audioPlays w); reflexivity. }
  assert (Hno : isRoute (run rt initialState never) = false).
  { rewrite isRoute_run, Hnever. reflexivity. }
  split; [unfold aggregationFailed, aggregated; rewrite Hempty; reflexivity|].
  split; [unfold handleFinishSwap; rewrite Hempty; simpl;
          destruct (audioPlays w); reflexivity|].
  split; [rewrite Hstep; reflexivity|].
  split; [rewrite Hstep; reflexivity|].
  split; [exact Hno|].
  split; [rewrite Hstep; reflexivity|].
  split; [unfold routeAccordion; rewrite Hno; reflexivity|].
  intros later Heq.
  assert (Hyes : isRoute (run rt (step rt st (ClickSwap w)) later) = true).
  { apply run_keeps_flag. rewrite Hstep. reflexivity. }
  rewrite Heq, Hno in Hyes. discriminate.
Qed.

Lemma empty_route_distinguishable_witness :
  aggregationFailed
    (withBackend sampleWorld (Response 200 (Parsed (VObj [])))) routedState = false /\
  List.filter isSetData
    (trace (handleFinishSwap (withBackend sampleWorld (Response 200 (Parsed (VObj []))))
              routedState)) = [SetData (VObj [])] /\
  data1 (step sampleRuntime routedState
           (ClickSwap (withBackend sampleWorld (Response 200 (Parsed (VObj [])))))) =
    VObj [] /\
  isRoute (step sampleRuntime routedState
             (ClickSwap (withBackend sampleWorld (Response 200 (Parsed (VObj [])))))) =
    true /\
  isRoute (run sampleRuntime initialState [ClickInvert; ClickConnect sampleWorld]) = false /\
  routeAccordion
    (step sampleRuntime routedState
       (ClickSwap (withBackend sampleWorld (Response 200 (Parsed (VObj [])))))) =
    Some SampleRoutes /\
  routeAccordion (run sampleRuntime initialState [ClickInvert; ClickConnect sampleWorld]) =
    None /\
  (forall later,
      run sampleRuntime
        (step sampleRuntime routedState
           (ClickSwap (withBackend sampleWorld (Response 200 (Parsed (VObj []))))))
        later <>
      run sampleRuntime initialState [ClickInvert; ClickConnect sampleWorld]).
Proof.
  apply (@empty_route_distinguishable sampleRuntime
           (withBackend sampleWorld (Response 200 (Parsed (VObj [])))) 200%N routedState
           [ClickInvert; ClickConnect sampleWorld]); reflexivity.
Defined.

Lemma other_actions_leave_amount (rt : Runtime) (st : State) (a : Action) :
  (forall p, a <> ClickPreset p) ->
  Emits (fun e => match e with SetAmount _ => False | _ => True end) (handler rt st a).
Proof.
  intros Ha. destruct a; try (exfalso; eapply Ha; reflexivity);
    unfold handler, handleSwap, handleFinishSwap, aggregate, fetch, json,
      handleConnectWallet, getTokenBalance, readBalance, readErc20.
  all: emitsBy ltac:(exact I).
Qed.

Lemma amount_run (rt : Runtime) (actions : list Action) (st : State) :
  amount (run rt st actions) =
  match lastPreset actions with
  | Some p => label p
  | None => amount st
  end.
Proof.
  revert st. induction actions as [|a actions IH]; intros st; [reflexivity|].
  change (run rt st (a :: actions)) with (run rt (step rt st a) actions).
  rewrite IH. simpl. destruct (lastPreset actions); [reflexivity|].
  destruct a; try reflexivity;
    unfold step;
    apply (@commit_invariant (fun s => amount s = amount st)
             (fun e => match e with SetAmount _ => False | _ => True end));
    try reflexivity;
    try (intros s e Hs He; destruct e; simpl in *; try assumption; contradiction);
    apply other_actions_leave_amount; discriminate.
Qed.

(** X4.  In every reachable state the button marked active is the one of the
    preset clicked last, and no button is active before the first such
    click: whatever else the user does in between, at most one preset is
    active and a selection is never dropped. *)
Theorem active_preset_is_last_clicked (rt : Runtime) (actions : list Action)
  (p : Preset) :
  active (run rt initialState actions) p = true <-> lastPreset actions = Some p.
Proof.
  unfold active. rewrite amount_run, eqb_str_true.
  destruct (lastPreset actions) as [q|].
  - split.
    + intros H. f_equal. apply label_inj. exact H.
    + intros H. inversion H. reflexivity.
  - split; [destruct p; discriminate | discriminate].
Qed.

(** ** Balance fetches and the wallet session *)

Lemma readBalance_no_setter (rt : Runtime) (w : World) (tokenAddress user : jsstring) :
  Emits (fun e => isSetter e = false) (readBalance rt w tokenAddress user).
Proof.
  unfold readBalance, readErc20. emitsBy ltac:(reflexivity).
Qed.

Lemma getTokenBalance_commit (rt : Runtime) (w : World) (st st0 : State)
  (tokenAddress fromOrTo : jsstring) :
  commit st0 (trace (getTokenBalance rt w st tokenAddress fromOrTo)) =
  match fetchedBalance rt w tokenAddress with
  | Some balance =>
      applySetter st0
        (if eqb_str fromOrTo (js "from")
         then SetFromToken (Token.withBalance (fromToken st) balance)
         else SetToToken (Token.withBalance (toToken st) balance))
  | None => st0
  end.
Proof.
  unfold getTokenBalance, fetchedBalance.
  destruct (ethereum w); [|reflexivity].
  destruct (requestAccounts w) as [accounts|]; [|reflexivity].
  cbn [negb]. rewrite !trace_bind. cbn [snd emit await trace fst].
  destruct (firstAccount accounts) as [user|]; [|reflexivity].
  rewrite trace_bind.
  pose proof (readBalance_no_setter rt w tokenAddress user) as Hread.
  destruct (readBalance rt w tokenAddress user) as [t [[[balance sym]|]|]];
    unfold Emits in Hread; cbn [snd trace fst] in *.
  all: rewrite !commit_app;
    change (commit st0 [NewBrowserProvider]) with st0;
    change (commit st0 [Send (js "eth_requestAccounts")]) with st0;
    rewrite (@commit_no_setter t st0 Hread).
  - destruct (eqb_str fromOrTo (js "from")); reflexivity.
  - reflexivity.
  - reflexivity.
Qed.

(** X7.  A balance fetch changes nothing but the token of its role, and that
    only by adding the fetched [balance]; when it fails at any point the
    state is left as it was.  The role is "from" for the string ["from"]
    and "to" for every other string. *)
Theorem balance_fetch_touches_one_role (rt : Runtime) (w : World) (st : State)
  (tokenAddress fromOrTo : jsstring) :
  (fetchedBalance rt w tokenAddress = None ->
   commit st (trace (getTokenBalance rt w st tokenAddress fromOrTo)) = st) /\
  (forall balance,
      fetchedBalance rt w tokenAddress = Some balance ->
      fromOrTo = js "from" ->
      commit st (trace (getTokenBalance rt w st tokenAddress fromOrTo)) =
      applySetter st (SetFromToken (Token.withBalance (fromToken st) balance)) /\
      sameToken (fromToken (commit st (trace (getTokenBalance rt w st tokenAddress fromOrTo))))
        (fromToken st)) /\
  (forall balance,
      fetchedBalance rt w tokenAddress = Some balance ->
      fromOrTo <> js "from" ->
      commit st (trace (getTokenBalance rt w st tokenAddress fromOrTo)) =
      applySetter st (SetToToken (Token.withBalance (toToken st) balance)) /\
      sameToken (toToken (commit st (trace (getTokenBalance rt w st tokenAddress fromOrTo))))
        (toToken st)).
Proof.
  rewrite getTokenBalance_commit. split; [|split].
  - intros Hnone. rewrite Hnone. reflexivity.
  - intros balance Hb Hrole. rewrite Hb, Hrole. split; [reflexivity | repeat split].
  - intros balance Hb Hrole. rewrite Hb.
    destruct (eqb_str fromOrTo (js "from")) eqn:E.
    + apply eqb_str_true in E. contradiction.
    + split; [reflexivity | repeat split].
Qed.

Lemma balance_fetch_touches_one_role_witness :
  commit initialState
    (trace (getTokenBalance sampleRuntime sampleWorld initialState (Token.address USDT)
              (js "From"))) =
  applySetter initialState
    (SetToToken (Token.withBalance USDT (formatUnits sampleRuntime 1500000 6))) /\
  sameToken
    (toToken
       (commit initialState
          (trace (getTokenBalance sampleRuntime sampleWorld initialState
                    (Token.address USDT) (js "From")))))
    USDT.
Proof.
  apply (balance_fetch_touches_one_role sampleRuntime sampleWorld initialState
           (Token.address USDT) (js "From")).
  - reflexivity.
  - discriminate.
Defined.

Lemma snd_bind {A B : Type} (m : M A) (k : A -> M B) :
  snd (bind m k) = match snd m with Some a => snd (k a) | None => None end.
Proof.
  unfold bind. destruct m as [t [a|]]; simpl; [|reflexivity].
  destruct (k a); reflexivity.
Qed.

Lemma snd_try {A : Type} (m h : M A) :
  snd (try_ m h) = match snd m with Some a => Some a | None => snd h end.
Proof.
  unfold try_. destruct m as [t [a|]]; simpl; [reflexivity|].
  destruct h; reflexivity.
Qed.

Lemma readBalance_rejects_iff (rt : Runtime) (w : World) (tokenAddress user : jsstring) :
  snd (readBalance rt w tokenAddress user) = None <->
  tokenAddress = nativeAddress /\ nativeBalance w user = None.
Proof.
  unfold readBalance. destruct (eqb_str tokenAddress nativeAddress) eqn:Haddr.
  - apply eqb_str_true in Haddr. rewrite snd_bind. cbn [snd await].
    destruct (nativeBalance w user).
    + split; [discriminate | intros [_ H]; discriminate].
    + split; [intros _; split; [assumption | reflexivity] | reflexivity].
  - rewrite snd_try. split.
    + destruct (snd _); discriminate.
    + intros [E _]. apply eqb_str_true in E. rewrite E in Haddr. discriminate.
Qed.

(** X8.  The promise [getTokenBalance] returns rejects exactly when the account
    request rejects, or when the native balance read does; a malformed
    token address and failing contract reads are caught inside. *)
Theorem getTokenBalance_rejects_iff (rt : Runtime) (w : World) (st : State)
  (tokenAddress fromOrTo : jsstring) :
  snd (getTokenBalance rt w st tokenAddress fromOrTo) = None <->
  ethereum w = true /\
  (requestAccounts w = None \/
   exists accounts userAddress,
     requestAccounts w = Some accounts /\
     firstAccount accounts = Some userAddress /\
     tokenAddress = nativeAddress /\
     nativeBalance w userAddress = None).
Proof.
  unfold getTokenBalance.
  destruct (ethereum w); cbn [negb].
  2:{ split; [discriminate | intros [H _]; discriminate]. }
  rewrite !snd_bind. cbn [snd emit await].
  destruct (requestAccounts w) as [accounts|].
  2:{ split; [intros _; split; [reflexivity | left; reflexivity] | reflexivity]. }
  destruct (firstAccount accounts) as [user|] eqn:Huser.
  2:{ split; [discriminate|].
      intros [_ [H | (acc & u & H1 & H2 & _)]]; [discriminate|].
      inversion H1; subst. rewrite Huser in H2. discriminate. }
  rewrite snd_bind.
  pose proof (readBalance_rejects_iff rt w tokenAddress user) as Hread.
  destruct (snd (readBalance rt w tokenAddress user)) as [r|].
  - split.
    + destruct r as [[balance sym]|]; [|discriminate].
      rewrite snd_bind. destruct (eqb_str fromOrTo (js "from")); discriminate.
    + intros [_ [H | (acc & u & H1 & H2 & H3 & H4)]]; [discriminate|].
      inversion H1; subst acc. rewrite Huser in H2. inversion H2; subst u.
      assert (Hn : Some r = None) by (apply Hread; split; assumption).
      discriminate.
  - split; [|reflexivity]. intros _. split; [reflexivity|].
    right. exists accounts, user.
    destruct (proj1 Hread eq_refl) as [H3 H4]. repeat split; assumption.
Qed.

Lemma getTokenBalance_no_session_setter (rt : Runtime) (w : World) (st : State)
  (tokenAddress fromOrTo : jsstring) :
  Emits (fun e => isSessionSetter e = false)
    (getTokenBalance rt w st tokenAddress fromOrTo).
Proof.
  unfold getTokenBalance, readBalance, readErc20. emitsBy ltac:(reflexivity).
Qed.

Lemma handleConnectWallet_connected (rt : Runtime) (w : World) (st : State)
  (sg : Signer) (a : jsstring) :
  ethereum w = true -> getSigner w = Some sg -> signerAddress w = Some a ->
  trace (handleConnectWallet rt w st) =
  [NewBrowserProvider; ProviderGetSigner; SignerGetAddress;
   SetSigner sg; SetAddress a; SetProvider BrowserProvider] ++
  trace (getTokenBalance rt w st (Token.address (fromToken st)) (js "from")) ++
  trace (getTokenBalance rt w st (Token.address (toToken st)) (js "to")) ++
  [ConsoleLog (js "Wallet connected:")].
Proof.
  intros Hw Hs Ha. unfold handleConnectWallet. rewrite Hw, Hs, Ha. cbn [negb].
  generalize (getTokenBalance rt w st (Token.address (fromToken st)) (js "from")).
  generalize (getTokenBalance rt w st (Token.address (toToken st)) (js "to")).
  intros [t2 r2] [t1 r1]. unfold detach. cbn [fst].
  cbn [trace fst try_ bind emit await app]. reflexivity.
Qed.

Lemma handleConnectWallet_not_connected (rt : Runtime) (w : World) (st : State) :
  connects (ClickConnect w) = false ->
  Forall (fun e => isSetter e = false) (trace (handleConnectWallet rt w st)).
Proof.
  unfold connects, handleConnectWallet. destruct (ethereum w); cbn [negb andb].
  - destruct (getSigner w) as [sg|]; [destruct (signerAddress w) as [a|]|];
      try discriminate; intros _; repeat constructor.
  - intros _. repeat constructor.
Qed.

Lemma other_actions_leave_session (rt : Runtime) (st : State) (a : Action) :
  connects a = false ->
  Emits (fun e => isSessionSetter e = false) (handler rt st a).
Proof.
  destruct a; intros Ha.
  8:{ unfold handler, Emits.
      eapply Forall_impl; [|apply (@handleConnectWallet_not_connected rt w st Ha)].
      intros e He. destruct e; try reflexivity; discriminate. }
  all: unfold handler, handleSwap, handleFinishSwap, aggregate, fetch, json.
  all: emitsBy ltac:(reflexivity).
Qed.

Lemma session_frame (t : list Event) (st : State) :
  Forall (fun e => isSessionSetter e = false) t -> session (commit st t) = session st.
Proof.
  intros Ht.
  apply (@commit_invariant (fun s => session s = session st)
           (fun e => isSessionSetter e = false)); [|exact Ht|reflexivity].
  intros s e Hs He. rewrite <- Hs. destruct e; try reflexivity; discriminate.
Qed.

Lemma session_after_connect (rt : Runtime) (w : World) (st : State)
  (sg : Signer) (a : jsstring) :
  ethereum w = true -> getSigner w = Some sg -> signerAddress w = Some a ->
  session (step rt st (ClickConnect w)) = (Some sg, Some a, Some BrowserProvider).
Proof.
  intros Hw Hs Ha. unfold step, handler.
  rewrite (@handleConnectWallet_connected rt w st sg a Hw Hs Ha), commit_app.
  rewrite session_frame; [reflexivity|].
  apply Forall_app. split; [apply getTokenBalance_no_session_setter|].
  apply Forall_app. split; [apply getTokenBalance_no_session_setter|].
  repeat constructor.
Qed.

Lemma session_run (rt : Runtime) (actions : list Action) (st : State) :
  (existsb connects actions = false -> session (run rt st actions) = session st) /\
  (existsb connects actions = true ->
   exists sg a, session (run rt st actions) = (Some sg, Some a, Some BrowserProvider)).
Proof.
  revert st. induction actions as [|x actions IH]; intros st.
  - split; [reflexivity | discriminate].
  - change (run rt st (x :: actions)) with (run rt (step rt st x) actions).
    destruct (IH (step rt st x)) as [IHno IHyes]. simpl.
    destruct (existsb connects actions) eqn:Hrest.
    + rewrite orb_true_r. split; [discriminate | intros _; apply IHyes; reflexivity].
    + rewrite orb_false_r. rewrite (IHno eq_refl). split.
      * intros Hx. unfold step. apply session_frame.
        apply (@other_actions_leave_session rt st x Hx).
      * intros Hx. destruct x; try discriminate. unfold connects in Hx.
        destruct (ethereum w) eqn:Hw; [|discriminate].
        destruct (getSigner w) as [sg|] eqn:Hs; [|discriminate].
        destruct (signerAddress w) as [a|] eqn:Ha; [|discriminate].
        exists sg, a. apply session_after_connect; assumption.
Qed.

(** X5.  The wallet session is all or nothing: in every reachable state
    signer, address and provider are all unset, when no click on "Connect"
    has got a signer and its address so far, or all set, when one has.
    Nothing unsets them again. *)
Theorem wallet_session_all_or_nothing (rt : Runtime) (actions : list Action) :
  (existsb connects actions = false ->
   signer (run rt initialState actions) = None /\
   address (run rt initialState actions) = None /\
   provider (run rt initialState actions) = None) /\
  (existsb connects actions = true ->
   exists sg a,
     signer (run rt initialState actions) = Some sg /\
     address (run rt initialState actions) = Some a /\
     provider (run rt initialState actions) = Some BrowserProvider).
Proof.
  destruct (session_run rt actions initialState) as [Hno Hyes]. split.
  - intros H. specialize (Hno H). unfold session in Hno. simpl in Hno.
    inversion Hno as [[H1 H2 H3]]. repeat split; assumption.
  - intros H. destruct (Hyes H) as (sg & a & Hs). unfold session in Hs.
    inversion Hs as [[H1 H2 H3]]. exists sg, a. repeat split; assumption.
Qed.

Lemma wallet_session_all_or_nothing_witness :
  (signer (run sampleRuntime initialState
             [ClickConnect (withoutWallet sampleWorld); ClickSwap sampleWorld]) = None /\
   address (run sampleRuntime initialState
              [ClickConnect (withoutWallet sampleWorld); ClickSwap sampleWorld]) = None /\
   provider (run sampleRuntime initialState
               [ClickConnect (withoutWallet sampleWorld); ClickSwap sampleWorld]) = None) /\
  (exists sg a,
      signer (run sampleRuntime initialState
                [ClickConnect sampleWorld; ClickConnect (withoutWallet sampleWorld)]) = Some sg /\
      address (run sampleRuntime initialState
                 [ClickConnect sampleWorld; ClickConnect (withoutWallet sampleWorld)]) = Some a /\
      provider (run sampleRuntime initialState
                  [ClickConnect sampleWorld; ClickConnect (withoutWallet sampleWorld)]) =
        Some BrowserProvider).
Proof.
  split.
  - apply (wallet_session_all_or_nothing sampleRuntime
             [ClickConnect (withoutWallet sampleWorld); ClickSwap sampleWorld]).
    reflexivity.
  - apply (wallet_session_all_or_nothing sampleRuntime
             [ClickConnect sampleWorld; ClickConnect (withoutWallet sampleWorld)]).
    reflexivity.
Defined.

(** X6.  When a click on "Connect" gets a signer and its address, each of the
    two tokens ends up with the balance its own fetch arrived at, or
    unchanged when that fetch failed or rejected: the outcome of one fetch
    has no bearing on the other token.  Nothing else but the session
    changes. *)
Theorem connect_fetches_balances_independently (rt : Runtime) (w : World)
  (st : State) (sg : Signer) (a : jsstring)
  (Hw : ethereum w = true) (Hs : getSigner w = Some sg)
  (Ha : signerAddress w = Some a) :
  fromToken (step rt st (ClickConnect w)) =
    match fetchedBalance rt w (Token.address (fromToken st)) with
    | Some balance => Token.withBalance (fromToken st) balance
    | None => fromToken st
    end /\
  toToken (step rt st (ClickConnect w)) =
    match fetchedBalance rt w (Token.address (toToken st)) with
    | Some balance => Token.withBalance (toToken st) balance
    | None => toToken st
    end /\
  amount (step rt st (ClickConnect w)) = amount st /\
  isRoute (step rt st (ClickConnect w)) = isRoute st /\
  data1 (step rt st (ClickConnect w)) = data1 st /\
  searchTerm (step rt st (ClickConnect w)) = searchTerm st.
Proof.
  unfold step, handler.
  rewrite (@handleConnectWallet_connected rt w st sg a Hw Hs Ha).
  rewrite !commit_app, !getTokenBalance_commit.
  destruct (fetchedBalance rt w (Token.address (fromToken st)));
    destruct (fetchedBalance rt w (Token.address (toToken st)));
    destruct st; repeat split.
Qed.

Lemma connect_fetches_balances_independently_witness :
  fromToken (step sampleRuntime initialState (ClickConnect sampleWorld)) =
    Token.withBalance ETH (formatUnits sampleRuntime 2000000000000000000 18) /\
  toToken (step sampleRuntime initialState (ClickConnect sampleWorld)) =
    Token.withBalance USDT (formatUnits sampleRuntime 1500000 6) /\
  amount (step sampleRuntime initialState (ClickConnect sampleWorld)) = js "" /\
  isRoute (step sampleRuntime initialState (ClickConnect sampleWorld)) = false /\
  data1 (step sampleRuntime initialState (ClickConnect sampleWorld)) = VObj [] /\
  searchTerm (step sampleRuntime initialState (ClickConnect sampleWorld)) = js "".
Proof.
  apply (@connect_fetches_balances_independently sampleRuntime sampleWorld initialState
           JsonRpcSigner sampleAccount); reflexivity.
Defined.

(** ** More on the aggregation request *)

(** X9.  [aggregate] never rejects and makes exactly one request.  It logs
    "Hata:" and resolves to [undefined] exactly when [fetch] or
    [response.json()] rejects; otherwise it logs nothing and resolves to
    the parsed body, whatever the status. *)
Theorem aggregate_resolves (net : FetchOutcome) (a b c : jsstring) :
  (exists v, snd (aggregate net a b c) = Some v) /\
  List.filter isFetch (trace (aggregate net a b c)) =
    [Fetch (js "") (Build_Payload a b c)] /\
  (In (ConsoleError (js "Hata:")) (trace (aggregate net a b c)) <->
   net = NetworkError \/ exists status, net = Response status NotJson) /\
  (net = NetworkError \/ (exists status, net = Response status NotJson) ->
   snd (aggregate net a b c) = Some VUndefined) /\
  (forall status v, net = Response status (Parsed v) ->
                    snd (aggregate net a b c) = Some v).
Proof.
  destruct net as [|status [|v]].
  - rewrite aggregate_network_error. repeat split; simpl; eauto.
    intros status v H. discriminate.
  - rewrite aggregate_not_json. repeat split; simpl; eauto.
    intros status' v H. discriminate.
  - rewrite aggregate_parsed. repeat split; simpl; eauto.
    + intros [H | [H | []]]; discriminate.
    + intros [H | [s H]]; discriminate.
    + intros [H | [s H]]; discriminate.
    + intros s v' H. inversion H. reflexivity.
Qed.

Lemma aggregate_resolves_witness :
  snd (aggregate (Response 502 NotJson) (Token.address ETH) (js "1") (Token.address USDT)) =
  Some VUndefined.
Proof.
  destruct (aggregate_resolves (Response 502 NotJson) (Token.address ETH) (js "1")
              (Token.address USDT)) as (_ & _ & _ & H & _).
  apply H. right. exists 502%N. reflexivity.
Defined.

(** X10.  [handleFinishSwap] never throws, so its outer [catch] never runs.  It
    makes exactly one request, to the empty URL, whose body holds the two
    current token addresses and the fixed amount ["1"]: the preset chosen
    and the balances fetched do not enter the request. *)
Theorem handleFinishSwap_one_fixed_request (w : World) (st : State) :
  snd (handleFinishSwap w st) = Some tt /\
  ~ In (ConsoleError (js "Error updating transaction status:"))
      (trace (handleFinishSwap w st)) /\
  List.filter isFetch (trace (handleFinishSwap w st)) =
    [Fetch (js "")
       (Build_Payload (Token.address (fromToken st)) (js "1")
          (Token.address (toToken st)))].
Proof.
  unfold handleFinishSwap.
  destruct (backend w) as [|status [|v]]; simpl.
  - repeat split. intros [H | [H | [H | [H | []]]]]; discriminate.
  - repeat split. intros [H | [H | [H | [H | [H | []]]]]]; discriminate.
  - destruct (truthy v); simpl; [destruct (audioPlays w); simpl|]; repeat split.
    + intros [H | [H | [H | [H | [H | [H | []]]]]]]; discriminate.
    + intros [H | [H | [H | [H | [H | [H | [H | []]]]]]]]; discriminate.
    + intros [H | [H | [H | [H | []]]]]; discriminate.
Qed.

(** X11.  When the aggregation succeeds ([aggregate] resolves to a truthy value),
    the state afterwards is the state before with [isRoute] set and
    [data1] replaced by that value, as it is, whether or not the sound can
    be played: a failing sound adds a warning to the console and nothing
    else. *)
Theorem successful_aggregation_stores_body (rt : Runtime) (w : World) (st : State)
  (data : value)
  (Hdata : aggregated w st = Some data) (Htruthy : truthy data = true) :
  step rt st (ClickSwap w) =
    applySetter (applySetter st (SetIsRoute true)) (SetData data) /\
  In PlayAudio (trace (handleFinishSwap w st)) /\
  (In (ConsoleWarn (js "play failed")) (trace (handleFinishSwap w st)) <->
   audioPlays w = false).
Proof.
  unfold aggregated in Hdata. unfold step, handler, handleFinishSwap.
  destruct (backend w) as [|status [|v]]; simpl in Hdata; inversion Hdata; subst data;
    try discriminate.
  rewrite aggregate_parsed. unfold try_, bind, emit, ret, trace. simpl.
  rewrite Htruthy.
  destruct (audioPlays w); simpl; (split; [reflexivity|]); (split; [auto 10|]);
    split; intros H.
  - repeat (destruct H as [H | H]; try discriminate). contradiction.
  - discriminate.
  - reflexivity.
  - auto 10.
Qed.

Lemma successful_aggregation_stores_body_witness :
  step sampleRuntime routedState
    (ClickSwap (withBackend sampleWorld (Response 200 (Parsed (VArr []))))) =
    applySetter (applySetter routedState (SetIsRoute true)) (SetData (VArr [])) /\
  In PlayAudio
    (trace (handleFinishSwap (withBackend sampleWorld (Response 200 (Parsed (VArr []))))
              routedState)) /\
  (In (ConsoleWarn (js "play failed"))
     (trace (handleFinishSwap (withBackend sampleWorld (Response 200 (Parsed (VArr []))))
               routedState)) <->
   audioPlays (withBackend sampleWorld (Response 200 (Parsed (VArr [])))) = false).
Proof.
  apply (@successful_aggregation_stores_body sampleRuntime
           (withBackend sampleWorld (Response 200 (Parsed (VArr [])))) routedState (VArr []));
    reflexivity.
Defined.

(** ** Picking tokens *)

Lemma entries_have_no_balance (token : Token.t) :
  In token tokens -> Token.balance token = None.
Proof.
  intros [H | [H | [H | [H | []]]]]; subst token; reflexivity.
Qed.

(** X12.  A click on a row of either dropdown puts the entry of the fixed list
    into that role and leaves the other role alone.  The entry carries no
    balance, so the balance line of that role falls back to ["--"], also
    when the token picked is the one already there with a fetched balance.
    A row past the end of the list changes nothing. *)
Theorem picking_a_token_drops_its_balance (rt : Runtime) (st : State) (row : nat) :
  (forall token,
      nth_error (filteredTokens rt (searchTerm st)) row = Some token ->
      In token tokens /\
      fromToken (step rt st (PickFrom row)) = token /\
      toToken (step rt st (PickFrom row)) = toToken st /\
      balanceText (fromToken (step rt st (PickFrom row))) = js "--" /\
      toToken (step rt st (PickTo row)) = token /\
      fromToken (step rt st (PickTo row)) = fromToken st /\
      balanceText (toToken (step rt st (PickTo row))) = js "--") /\
  (nth_error (filteredTokens rt (searchTerm st)) row = None ->
   step rt st (PickFrom row) = st /\ step rt st (PickTo row) = st).
Proof.
  unfold step, handler, fromDropdown, toDropdown, rows. split.
  - intros token Hrow. rewrite Hrow.
    assert (Hin : In token tokens).
    { apply nth_error_In in Hrow. apply filter_In in Hrow. apply Hrow. }
    unfold balanceText. simpl. rewrite (@entries_have_no_balance token Hin).
    repeat split. exact Hin.
  - intros Hrow. rewrite Hrow. split; reflexivity.
Qed.

Lemma picking_a_token_drops_its_balance_witness :
  In USDC tokens /\
  fromToken (step sampleRuntime
               (step sampleRuntime initialState (ClickConnect sampleWorld))
               (PickFrom 1)) = USDC /\
  toToken (step sampleRuntime
             (step sampleRuntime initialState (ClickConnect sampleWorld))
             (PickFrom 1)) =
    toToken (step sampleRuntime initialState (ClickConnect sampleWorld)) /\
  balanceText
    (fromToken (step sampleRuntime
                  (step sampleRuntime initialState (ClickConnect sampleWorld))
                  (PickFrom 1))) = js "--" /\
  toToken (step sampleRuntime
             (step sampleRuntime initialState (ClickConnect sampleWorld))
             (PickTo 1)) = USDC /\
  fromToken (step sampleRuntime
               (step sampleRuntime initialState (ClickConnect sampleWorld))
               (PickTo 1)) =
    fromToken (step sampleRuntime initialState (ClickConnect sampleWorld)) /\
  balanceText
    (toToken (step sampleRuntime
                (step sampleRuntime initialState (ClickConnect sampleWorld))
                (PickTo 1))) = js "--".
Proof.
  apply (picking_a_token_drops_its_balance sampleRuntime
           (step sampleRuntime initialState (ClickConnect sampleWorld)) 1).
  reflexivity.
Defined.

Lemma Subseq_filter_mono {A : Type} (f g : A -> bool) (l : list A) :
  (forall x, In x l -> f x = true -> g x = true) ->
  Subseq (List.filter f l) (List.filter g l).
Proof.
  induction l as [|x l IH]; intros H; simpl.
  - constructor.
  - assert (IH' : Subseq (List.filter f l) (List.filter g l)).
    { apply IH. intros y Hy. apply H. right. exact Hy. }
    destruct (f x) eqn:Hf.
    + rewrite (H x (or_introl eq_refl) Hf). apply Subseq_keep. exact IH'.
    + destruct (g x); [apply Subseq_skip|]; exact IH'.
Qed.

Lemma isAscii_app (s s' : jsstring) :
  isAscii (s ++ s') = isAscii s && isAscii s'.
Proof. unfold isAscii. apply forallb_app. Qed.

Lemma names_are_ascii (token : Token.t) :
  In token tokens -> isAscii (Token.name token) = true.
Proof.
  intros [H | [H | [H | [H | []]]]]; subst token; reflexivity.
Qed.

(** X13.  Typing more narrows the list: for ASCII terms, the rows shown for a
    term extended at either end are among the rows shown for the term
    itself, in the same order. *)
Theorem longer_term_narrows (rt : Runtime)
  (Hlower : forall s, isAscii s = true -> toLowerCase rt s = asciiLower s)
  (s more : jsstring) (Hs : isAscii s = true) (Hmore : isAscii more = true) :
  Subseq (filteredTokens rt (s ++ more)) (filteredTokens rt s) /\
  Subseq (filteredTokens rt (more ++ s)) (filteredTokens rt s).
Proof.
  assert (G : forall long : jsstring,
             isAscii long = true -> Substring (asciiLower s) (asciiLower long) ->
             Subseq (filteredTokens rt long) (filteredTokens rt s)).
  { intros long Hlong [pre [post Hsub]]. unfold filteredTokens.
    apply Subseq_filter_mono. intros token Hin.
    rewrite (Hlower _ (@names_are_ascii token Hin)), (Hlower _ Hlong), (Hlower _ Hs).
    rewrite !includes_true. intros [pre' [post' H]].
    exists (pre' ++ pre), (post ++ post'). rewrite H, Hsub.
    rewrite <- !app_assoc. reflexivity. }
  split; apply G.
  - rewrite isAscii_app, Hs, Hmore. reflexivity.
  - exists [], (asciiLower more). unfold asciiLower. rewrite map_app. reflexivity.
  - rewrite isAscii_app, Hs, Hmore. reflexivity.
  - exists (asciiLower more), []. unfold asciiLower.
    rewrite map_app, app_nil_r. reflexivity.
Qed.

Lemma longer_term_narrows_witness :
  Subseq (filteredTokens sampleRuntime (js "us" ++ js "dc"))
    (filteredTokens sampleRuntime (js "us")) /\
  Subseq (filteredTokens sampleRuntime (js "dc" ++ js "us"))
    (filteredTokens sampleRuntime (js "us")).
Proof.
  apply (@longer_term_narrows sampleRuntime); try reflexivity.
Defined.

(** ** Truncated strings *)

Lemma slice_prefix (s : jsstring) (n : Z) :
  (0 <= n)%Z -> slice s 0 (Some n) = firstn (Z.to_nat n) s.
Proof.
  intros Hn. unfold slice, clampIndex. simpl Z.ltb. cbv iota.
  destruct (Z.ltb_spec n 0) as [Hneg | _]; [lia|].
  rewrite (Z.min_l 0) by lia. rewrite Z.sub_0_r. simpl skipn.
  destruct (Z.le_ge_cases n (Z.of_nat (List.length s))) as [Hle | Hge].
  - rewrite Z.min_l by lia. reflexivity.
  - rewrite Z.min_r by lia. rewrite Nat2Z.id.
    rewrite firstn_all, firstn_all2 by lia. reflexivity.
Qed.

Lemma slice_suffix (s : jsstring) (b : Z) :
  (0 < b)%Z -> slice s (- b) None = skipn (List.length s - Z.to_nat b) s.
Proof.
  intros Hb. unfold slice, clampIndex.
  destruct (Z.ltb_spec (- b) 0) as [_ | Hpos]; [|lia].
  replace (Z.to_nat (Z.max (Z.of_nat (List.length s) + - b) 0))
    with (List.length s - Z.to_nat b) by lia.
  apply firstn_all2. rewrite length_skipn. lia.
Qed.

Lemma slice_from_start (s : jsstring) : slice s (- 0) None = s.
Proof.
  unfold slice, clampIndex. simpl Z.opp. simpl Z.ltb. cbv iota.
  rewrite (Z.min_l 0) by lia. rewrite Z.sub_0_r, Nat2Z.id. simpl skipn.
  apply firstn_all.
Qed.

(** X14.  For a limit [maxLength >= 0], [truncateString] returns a string of at
    most [maxLength] units as it is, and cuts a longer one down to its
    first [maxLength] units followed by ["..."]; the result has at most
    [maxLength + 3] units, and truncating it again changes nothing.  A
    value that is not a string gives the empty string. *)
Theorem truncateString_bounded_idempotent (s : jsstring) (maxLength : Z)
  (Hmax : (0 <= maxLength)%Z) :
  (Z.of_nat (List.length s) <= maxLength ->
   truncateString (VStr s) maxLength = s)%Z /\
  (maxLength < Z.of_nat (List.length s) ->
   truncateString (VStr s) maxLength = firstn (Z.to_nat maxLength) s ++ js "...")%Z /\
  (Z.of_nat (List.length (truncateString (VStr s) maxLength)) <= maxLength + 3)%Z /\
  truncateString (VStr (truncateString (VStr s) maxLength)) maxLength =
    truncateString (VStr s) maxLength /\
  truncateString VUndefined maxLength = js "" /\
  truncateString VNull maxLength = js "" /\
  (forall x, truncateString (VNum x) maxLength = js "").
Proof.
  assert (Hshort : (Z.of_nat (List.length s) <= maxLength)%Z ->
                   truncateString (VStr s) maxLength = s).
  { intros H. unfold truncateString. destruct s as [|c s]; [reflexivity|].
    cbn [eqb_str]. destruct (Z.leb_spec (Z.of_nat (List.length (c :: s))) maxLength);
      [reflexivity | lia]. }
  assert (Hlong : (maxLength < Z.of_nat (List.length s))%Z ->
                  truncateString (VStr s) maxLength =
                  firstn (Z.to_nat maxLength) s ++ js "...").
  { intros H. unfold truncateString. destruct s as [|c s]; [simpl in H; lia|].
    cbn [eqb_str]. destruct (Z.leb_spec (Z.of_nat (List.length (c :: s))) maxLength);
      [lia|]. rewrite slice_prefix by exact Hmax. reflexivity. }
  split; [exact Hshort|]. split; [exact Hlong|].
  destruct (Z.le_gt_cases (Z.of_nat (List.length s)) maxLength) as [Hle | Hgt].
  - rewrite (Hshort Hle). split; [lia|]. split; [exact (Hshort Hle) | repeat split].
  - rewrite (Hlong Hgt).
    assert (Hlen : List.length (firstn (Z.to_nat maxLength) s ++ js "...") =
                   Z.to_nat maxLength + 3).
    { rewrite length_app, length_firstn. simpl. lia. }
    split; [lia|]. split; [|repeat split].
    unfold truncateString.
    destruct (firstn (Z.to_nat maxLength) s ++ js "...") as [|c r] eqn:E;
      [simpl in Hlen; lia|].
    cbn [eqb_str]. destruct (Z.leb_spec (Z.of_nat (List.length (c :: r))) maxLength);
      [lia|].
    rewrite slice_prefix by exact Hmax. rewrite <- E.
    rewrite firstn_app, firstn_firstn, Nat.min_id, length_firstn.
    replace (Z.to_nat maxLength - Nat.min (Z.to_nat maxLength) (List.length s))
      with 0 by lia.
    simpl firstn at 2. rewrite app_nil_r. reflexivity.
Qed.

Lemma truncateString_bounded_idempotent_witness :
  truncateString (VStr sampleAccount) 6 = js "0x7099..." /\
  truncateString (VStr (truncateString (VStr sampleAccount) 6)) 6 =
    truncateString (VStr sampleAccount) 6.
Proof.
  destruct (@truncateString_bounded_idempotent sampleAccount 6%Z)
    as (_ & Hlong & _ & Hagain & _); [lia|].
  split; [apply Hlong; simpl; lia | exact Hagain].
Defined.

(** X15.  A string one or two units over the limit comes back longer than it
    went in. *)
Theorem truncateString_can_lengthen (s : jsstring) (maxLength : Z)
  (Hmax : (0 <= maxLength)%Z)
  (Hover : (maxLength < Z.of_nat (List.length s) < maxLength + 3)%Z) :
  List.length s < List.length (truncateString (VStr s) maxLength).
Proof.
  unfold truncateString. destruct s as [|c s]; [simpl in Hover; lia|].
  cbn [eqb_str]. destruct (Z.leb_spec (Z.of_nat (List.length (c :: s))) maxLength);
    [lia|]. rewrite slice_prefix by exact Hmax.
  rewrite length_app, length_firstn. simpl List.length in *. lia.
Qed.

Lemma truncateString_can_lengthen_witness :
  List.length (js "abcdefg") < List.length (truncateString (VStr (js "abcdefg")) 6).
Proof.
  apply (@truncateString_can_lengthen (js "abcdefg") 6%Z).
  - discriminate.
  - simpl. lia.
Defined.

(** X16.  For a non-negative [front], a positive [back] and an address of at
    least [front + back] units, [truncateAddress] is the first [front]
    units, ["..."], and the last [back] units: [front + back + 3] units in
    all. *)
Theorem truncateAddress_head_and_tail (a : jsstring) (front back : Z)
  (Hfront : (0 <= front)%Z) (Hback : (0 < back)%Z)
  (Hlen : (front + back <= Z.of_nat (List.length a))%Z) :
  truncateAddress (Some a) front back =
    firstn (Z.to_nat front) a ++ js "..." ++ skipn (List.length a - Z.to_nat back) a /\
  Z.of_nat (List.length (truncateAddress (Some a) front back)) = (front + back + 3)%Z.
Proof.
  assert (H : truncateAddress (Some a) front back =
              firstn (Z.to_nat front) a ++ js "..." ++
              skipn (List.length a - Z.to_nat back) a).
  { unfold truncateAddress. destruct a as [|c a]; [simpl in Hlen; lia|].
    cbn [eqb_str]. rewrite slice_prefix, slice_suffix by assumption. reflexivity. }
  split; [exact H|]. rewrite H.
  rewrite !length_app, length_firstn, length_skipn. simpl List.length at 2. lia.
Qed.

Lemma truncateAddress_head_and_tail_witness :
  truncateAddress (Some sampleAccount) 6 4 = js "0x7099...79C8" /\
  Z.of_nat (List.length (truncateAddress (Some sampleAccount) 6 4)) = 13%Z.
Proof.
  apply (@truncateAddress_head_and_tail sampleAccount 6%Z 4%Z).
  - discriminate.
  - reflexivity.
  - discriminate.
Defined.

(** X17.  An address no longer than [front] and [back] is not shortened but
    doubled: it comes back whole on both sides of the ["..."].  And with
    [back = 0] the tail is not empty but the whole address, because
    [slice(-0)] is [slice(0)]. *)
Theorem truncateAddress_short_or_no_tail (a : jsstring) (front back : Z)
  (Hne : a <> []) :
  ((Z.of_nat (List.length a) <= front)%Z ->
   (Z.of_nat (List.length a) <= back)%Z ->
   truncateAddress (Some a) front back = a ++ js "..." ++ a) /\
  ((0 <= front)%Z ->
   truncateAddress (Some a) front 0 = firstn (Z.to_nat front) a ++ js "..." ++ a).
Proof.
  unfold truncateAddress. destruct a as [|c a]; [contradiction|]. cbn [eqb_str].
  split.
  - intros Hf Hb.
    assert (Hpos : (0 < Z.of_nat (List.length (c :: a)))%Z)
      by (cbn [List.length]; lia).
    rewrite slice_prefix, slice_suffix by lia.
    rewrite firstn_all2 by lia.
    replace (List.length (c :: a) - Z.to_nat back) with 0 by lia.
    reflexivity.
  - intros Hf. rewrite slice_prefix by exact Hf.
    change (- 0)%Z with (- (0))%Z. rewrite slice_from_start. reflexivity.
Qed.

Lemma truncateAddress_short_or_no_tail_witness :
  truncateAddress (Some (js "abc")) 6 4 = js "abc...abc" /\
  truncateAddress (Some (js "abcdefghijkl")) 6 0 = js "abcdef...abcdefghijkl".
Proof.
  destruct (@truncateAddress_short_or_no_tail (js "abc") 6%Z 4%Z) as [H1 _];
    [discriminate|].
  destruct (@truncateAddress_short_or_no_tail (js "abcdefghijkl") 6%Z 4%Z) as [_ H2];
    [discriminate|].
  split; [apply H1; simpl; lia | apply H2; lia].
Defined.

(** ** The viewport and the "Connect" button *)

(** X18.  [getViewport] names every window width but one: below 768 it is
    "mobile", from 768 up to 1249 "tablet", above 1250 "desktop", and at
    exactly 1250 it returns nothing ([undefined]), which the component
    treats as not mobile. *)
Theorem getViewport_gap_at_1250 (width : Z) :
  (getViewport (Some width) = Some (js "mobile") <-> width < 768)%Z /\
  (getViewport (Some width) = Some (js "tablet") <-> 768 <= width < 1250)%Z /\
  (getViewport (Some width) = Some (js "desktop") <-> 1250 < width)%Z /\
  (getViewport (Some width) = None <-> width = 1250)%Z /\
  notMobile (getViewport (Some 1250%Z)) = true.
Proof.
  unfold getViewport, tablet, desktop.
  destruct (Z.ltb_spec width 768); [|destruct (Z.ltb_spec width 1250);
                                      [|destruct (Z.gtb_spec width 1250)]].
  all: repeat split; try reflexivity; try lia; try discriminate.
Qed.

Lemma notMobile_getViewport (width : Z) :
  notMobile (getViewport (Some width)) = negb (Z.ltb width 768).
Proof.
  unfold getViewport, tablet, desktop.
  destruct (Z.ltb width 768); [reflexivity|].
  destruct (Z.ltb width 1250); [reflexivity|].
  destruct (Z.gtb width 1250); reflexivity.
Qed.

(** X19.  Until a click on "Connect" has got a signer and its address, the
    button reads ["Connect Wallet"], or ["Connect "] (with its trailing
    space) on a window narrower than 768. *)
Theorem connectLabel_before_connection (rt : Runtime) (actions : list Action)
  (width : Z) (Hnone : existsb connects actions = false) :
  connectLabel (getViewport (Some width)) (run rt initialState actions) =
  if Z.ltb width 768 then js "Connect " else js "Connect Wallet".
Proof.
  destruct (session_run rt actions initialState) as [Hno _].
  specialize (Hno Hnone). unfold session in Hno. inversion Hno as [[H1 H2 H3]].
  unfold connectLabel. rewrite H2. simpl address. cbv iota.
  rewrite notMobile_getViewport. destruct (Z.ltb width 768); reflexivity.
Qed.

Lemma connectLabel_before_connection_witness :
  connectLabel (getViewport (Some 1250%Z))
    (run sampleRuntime initialState [ClickConnect (withoutWallet sampleWorld); ClickInvert]) =
  js "Connect Wallet".
Proof.
  apply (@connectLabel_before_connection sampleRuntime
           [ClickConnect (withoutWallet sampleWorld); ClickInvert] 1250%Z).
  reflexivity.
Defined.

(** X20.  Right after a click on "Connect" that gets a signer and an address of
    at least ten units, the button shows that address cut down: its first
    six units and ["..."] on a window narrower than 768, and its first six
    units, ["..."] and its last four units otherwise. *)
Theorem connectLabel_after_connect (rt : Runtime) (w : World) (st : State)
  (sg : Signer) (a : jsstring) (width : Z)
  (Hw : ethereum w = true) (Hs : getSigner w = Some sg)
  (Ha : signerAddress w = Some a) (Hlen : 10 <= List.length a) :
  connectLabel (getViewport (Some width)) (step rt st (ClickConnect w)) =
  if Z.ltb width 768 then firstn 6 a ++ js "..."
  else firstn 6 a ++ js "..." ++ skipn (List.length a - 4) a.
Proof.
  pose proof (@session_after_connect rt w st sg a Hw Hs Ha) as Hsession.
  unfold session in Hsession. inversion Hsession as [[H1 H2 H3]].
  unfold connectLabel. rewrite H2, notMobile_getViewport.
  destruct a as [|c a]; [simpl in Hlen; lia|]. cbn [eqb_str].
  destruct (Z.ltb width 768); cbn [negb].
  - unfold truncateString. cbn [eqb_str].
    destruct (Z.leb_spec (Z.of_nat (List.length (c :: a))) 6); [lia|].
    rewrite slice_prefix by lia. reflexivity.
  - unfold truncateAddress. cbn [eqb_str].
    rewrite slice_prefix, slice_suffix by lia. reflexivity.
Qed.

Lemma connectLabel_after_connect_witness :
  connectLabel (getViewport (Some 1250%Z))
    (step sampleRuntime initialState (ClickConnect sampleWorld)) =
  js "0x7099...79C8".
Proof.
  apply (@connectLabel_after_connect sampleRuntime sampleWorld initialState
           JsonRpcSigner sampleAccount 1250%Z); try reflexivity.
  simpl. lia.
Defined.

(** * The utilities, the SDK and its hooks *)

(** ** Links and the click sounds *)



(** X22.  Whatever [Math.random()] returns (a number from 0 up to, not
    including, 1), the index computed from it is within the array: a
    click sound is always found. *)
Theorem pickSound_in_range (random : QArith_base.Q)
  (Hlow : QArith_base.Qle (QArith_base.inject_Z 0) random)
  (Hhigh : QArith_base.Qlt random (QArith_base.inject_Z 1)) :
  exists src, pickSound random = Some src /\ In src soundFiles.
Proof.
  unfold pickSound.
  set (x := QArith_base.Qmult random
              (QArith_base.inject_Z (Z.of_nat (List.length soundFiles)))).
  assert (H0 : (0 <= Qround.Qfloor x)%Z).
  { change 0%Z with (Qround.Qfloor (QArith_base.inject_Z 0)).
    apply Qround.Qfloor_resp_le. unfold x, QArith_base.Qle, QArith_base.Qmult in *.
    simpl in *. nia. }
  assert (H4 : (Qround.Qfloor x < 4)%Z).
  { rewrite QArith_base.Zlt_Qlt.
    apply QArith_base.Qle_lt_trans with (y := x); [apply Qround.Qfloor_le|].
    unfold x, QArith_base.Qlt, QArith_base.Qmult in *. simpl in *. nia. }
  destruct (Qround.Qfloor x) as [|p|p] eqn:E; [| |lia].
  - eexists. split; [reflexivity | simpl; auto].
  - assert (Hp : (p = 1 \/ p = 2 \/ p = 3)%positive) by lia.
    destruct Hp as [-> | [-> | ->]]; eexists; (split; [reflexivity | simpl; auto]).
Qed.

Lemma pickSound_in_range_witness :
  exists src, pickSound (QArith_base.Qmake 3 4) = Some src /\ In src soundFiles.
Proof.
  apply (pickSound_in_range (random := QArith_base.Qmake 3 4)).
  - unfold QArith_base.Qle. simpl. lia.
  - unfold QArith_base.Qlt. simpl. lia.
Defined.

(** ** The trading SDK *)

Lemma request_result (api : TradingAPI.t) (net : FetchOutcome)
  (endpoint method : jsstring) (body : option value) :
  snd (TradingAPI.request api net endpoint method body) =
  match net with
  | NetworkError => inl FetchRejected
  | Response status NotJson => inl JsonRejected
  | Response status (Parsed v) =>
      if ok status then inr v
      else match TradingAPI.errorMessage v status with
           | inl error => inl error
           | inr message => inl (ErrorOf message)
           end
  end.
Proof.
  unfold TradingAPI.request. destruct net as [|status [|v]]; try reflexivity.
  cbn [eawait ebind etry snd fst app]. destruct (ok status); [reflexivity|].
  cbn [negb]. destruct (TradingAPI.errorMessage v status); reflexivity.
Qed.

Lemma request_trace (api : TradingAPI.t) (net : FetchOutcome)
  (endpoint method : jsstring) (body : option value) :
  List.length (List.filter isApiFetch (fst (TradingAPI.request api net endpoint method body))) = 1 /\
  existsb isApiConsoleError (fst (TradingAPI.request api net endpoint method body)) =
  match snd (TradingAPI.request api net endpoint method body) with
  | inl _ => true
  | inr _ => false
  end.
Proof.
  unfold TradingAPI.request. destruct net as [|status [|v]]; try (split; reflexivity).
  cbn [eawait ebind etry snd fst app]. destruct (ok status); [split; reflexivity|].
  cbn [negb]. destruct (TradingAPI.errorMessage v status); split; reflexivity.
Qed.

(** X23.  [TradingAPI.request] makes one request.  It resolves, to the parsed
    body, exactly when [fetch] resolves with a 2xx status and a JSON body;
    in every other case it rejects, after logging the failure once.  For a
    non-2xx answer whose JSON body is an object without [error], the error
    it rejects with is [Error("HTTP <status>")]. *)
Theorem request_rejects_unless_ok (api : TradingAPI.t) (net : FetchOutcome)
  (endpoint method : jsstring) (body : option value) :
  (forall data,
      snd (TradingAPI.request api net endpoint method body) = inr data <->
      exists status, net = Response status (Parsed data) /\ ok status = true) /\
  List.length (List.filter isApiFetch (fst (TradingAPI.request api net endpoint method body))) = 1 /\
  (existsb isApiConsoleError (fst (TradingAPI.request api net endpoint method body)) = true <->
   exists error, snd (TradingAPI.request api net endpoint method body) = inl error) /\
  (forall status props,
      net = Response status (Parsed (VObj props)) ->
      ok status = false ->
      lookupProp props (js "error") = VUndefined ->
      snd (TradingAPI.request api net endpoint method body) =
      inl (ErrorOf (VStr (js "HTTP " ++ decimalN status)))).
Proof.
  destruct (request_trace api net endpoint method body) as [Hone Hlog].
  rewrite Hlog, request_result. split; [|split; [exact Hone | split]].
  - intros data. destruct net as [|status [|v]].
    + split; [discriminate | intros (s & H & _); discriminate].
    + split; [discriminate | intros (s & H & _); discriminate].
    + destruct (ok status) eqn:Hok.
      * split.
        -- intros H. inversion H. subst. exists status. split; [reflexivity | exact Hok].
        -- intros (s & H & _). inversion H. reflexivity.
      * split.
        -- destruct (TradingAPI.errorMessage v status); discriminate.
        -- intros (s & H & Hs). inversion H. subst. rewrite Hok in Hs. discriminate.
  - destruct net as [|status [|v]]; try (split; [eauto | reflexivity]).
    destruct (ok status).
    + split; [discriminate | intros [e H]; discriminate].
    + destruct (TradingAPI.errorMessage v status); split; eauto.
  - intros status props Hnet Hok Hprop. subst net. rewrite Hok.
    unfold TradingAPI.errorMessage. cbn [getProp]. rewrite Hprop. reflexivity.
Qed.

Lemma request_rejects_unless_ok_witness :
  snd (TradingAPI.request sampleApi (Response 500 (Parsed (VObj []))) (js "/api/health")
         (js "GET") None) =
  inl (ErrorOf (VStr (js "HTTP 500"))).
Proof.
  destruct (request_rejects_unless_ok sampleApi (Response 500 (Parsed (VObj [])))
              (js "/api/health") (js "GET") None) as (_ & _ & _ & H).
  apply (H 500%N []); reflexivity.
Defined.

(** ** The hooks *)

Lemma request_no_hook_setter (api : TradingAPI.t) (net : FetchOutcome)
  (endpoint method : jsstring) (body : option value) :
  Forall (fun e => isHookSetter e = false)
    (fst (TradingAPI.request api net endpoint method body)).
Proof.
  unfold TradingAPI.request. destruct net as [|status [|v]];
    try (repeat constructor).
  cbn [eawait ebind etry snd fst app]. destruct (ok status); [repeat constructor|].
  cbn [negb]. destruct (TradingAPI.errorMessage v status); repeat constructor.
Qed.

Lemma commitHook_app (t1 t2 : list ApiEvent) (h : HookState) :
  commitHook h (t1 ++ t2) = commitHook (commitHook h t1) t2.
Proof. unfold commitHook. apply fold_left_app. Qed.

Lemma commitHook_neutral (t : list ApiEvent) (h : HookState) :
  Forall (fun e => isHookSetter e = false) t -> commitHook h t = h.
Proof.
  unfold commitHook. induction t as [|e t IH]; intros Ht; [reflexivity|].
  inversion Ht as [|e' t' He Ht']; subst. simpl. 
  replace (applyHook h e) with h; [apply IH; exact Ht'|].
  destruct e; try reflexivity; discriminate.
Qed.

Lemma fetchAccountInfo_unbound (key : option jsstring) (net : FetchOutcome) :
  noKey key = false ->
  fetchAccountInfo false key net =
  ([SetLoading true; SetError None; SetError (Some ReferenceErrorThrown); SetLoading false],
   inr tt).
Proof. intros Hkey. unfold fetchAccountInfo. rewrite Hkey. reflexivity. Qed.

Lemma fetchAccountInfo_trace (key : option jsstring) (net : FetchOutcome) :
  noKey key = false ->
  fst (fetchAccountInfo true key net) =
  [SetLoading true; SetError None] ++
  fst (TradingAPI.getAccountInfo
         (TradingAPI.Build_t (keyOf key) TradingAPI.defaultBaseURL) net) ++
  match snd (TradingAPI.getAccountInfo
               (TradingAPI.Build_t (keyOf key) TradingAPI.defaultBaseURL) net) with
  | inr result =>
      match getProp result (js "data") with
      | Some info => [SetAccountInfo info]
      | None => [SetError (Some TypeErrorThrown)]
      end
  | inl err => [SetError (Some err)]
  end ++ [SetLoading false].
Proof.
  intros Hkey. unfold fetchAccountInfo, newTradingAPI. rewrite Hkey.
  unfold eret at 1. unfold ebind at 3.
  destruct (TradingAPI.getAccountInfo
              (TradingAPI.Build_t (keyOf key) TradingAPI.defaultBaseURL) net)
    as [t [err | result]]; cbn [ebind etry efinally eemit fst snd app].
  - rewrite <- app_assoc. reflexivity.
  - unfold dataOf, ebind.
    destruct (getProp result (js "data")); cbn [etry eemit fst snd app];
      rewrite <- ?app_assoc; reflexivity.
Qed.

Lemma fetchAccountInfo_resolves (bound : bool) (key : option jsstring)
  (net : FetchOutcome) :
  snd (fetchAccountInfo bound key net) = inr tt.
Proof.
  unfold fetchAccountInfo, newTradingAPI. destruct (noKey key); [reflexivity|].
  destruct bound; [|reflexivity].
  unfold eret at 1. unfold ebind at 3.
  destruct (TradingAPI.getAccountInfo
              (TradingAPI.Build_t (keyOf key) TradingAPI.defaultBaseURL) net)
    as [t [err | result]]; cbn [ebind etry efinally eemit fst snd app].
  - reflexivity.
  - unfold dataOf, ebind. destruct (getProp result (js "data")); reflexivity.
Qed.

(** X24.  [fetchAccountInfo] does nothing at all without an API key.  With
    one, it never rejects, sets [loading] first and leaves it [false] on
    every path.  Where no global [TradingAPI] exists (the file itself
    provides none) it makes no request, keeps the account information it
    had and stores the [ReferenceError].  Where one exists, it stores
    [result.data] and no error when the request resolves to a value that
    has properties, and otherwise keeps the account information it had and
    stores the error. *)
Theorem fetchAccountInfo_clears_loading (bound : bool) (key : option jsstring)
  (net : FetchOutcome) (h : HookState) :
  (noKey key = true -> fetchAccountInfo bound key net = ([], inr tt)) /\
  (noKey key = false ->
   snd (fetchAccountInfo bound key net) = inr tt /\
   hd_error (fst (fetchAccountInfo bound key net)) = Some (SetLoading true) /\
   loading (commitHook h (fst (fetchAccountInfo bound key net))) = false /\
   (bound = false ->
    List.filter isApiFetch (fst (fetchAccountInfo bound key net)) = [] /\
    accountInfo (commitHook h (fst (fetchAccountInfo bound key net))) = accountInfo h /\
    error (commitHook h (fst (fetchAccountInfo bound key net))) =
      Some ReferenceErrorThrown) /\
   (bound = true ->
    match snd (TradingAPI.getAccountInfo
                 (TradingAPI.Build_t (keyOf key) TradingAPI.defaultBaseURL) net) with
    | inr result =>
        match getProp result (js "data") with
        | Some info =>
            accountInfo (commitHook h (fst (fetchAccountInfo bound key net))) = info /\
            error (commitHook h (fst (fetchAccountInfo bound key net))) = None
        | None =>
            accountInfo (commitHook h (fst (fetchAccountInfo bound key net))) =
              accountInfo h /\
            error (commitHook h (fst (fetchAccountInfo bound key net))) =
              Some TypeErrorThrown
        end
    | inl err =>
        accountInfo (commitHook h (fst (fetchAccountInfo bound key net))) = accountInfo h /\
        error (commitHook h (fst (fetchAccountInfo bound key net))) = Some err
    end)).
Proof.
  split; [intros Hkey; unfold fetchAccountInfo; rewrite Hkey; reflexivity|].
  intros Hkey. rewrite fetchAccountInfo_resolves. destruct bound.
  - rewrite (@fetchAccountInfo_trace key net Hkey).
    pose proof (request_no_hook_setter
                  (TradingAPI.Build_t (keyOf key) TradingAPI.defaultBaseURL) net
                  (js "/api/account/info") (js "GET") None) as Hquiet.
    fold (TradingAPI.getAccountInfo
            (TradingAPI.Build_t (keyOf key) TradingAPI.defaultBaseURL) net) in Hquiet.
    rewrite !commitHook_app, (@commitHook_neutral _ _ Hquiet).
    split; [reflexivity|]. split; [reflexivity|].
    split; [|split; [discriminate|intros _]].
    + destruct (snd (TradingAPI.getAccountInfo
                       (TradingAPI.Build_t (keyOf key) TradingAPI.defaultBaseURL) net))
        as [err | result]; [|destruct (getProp result (js "data"))]; reflexivity.
    + destruct (snd (TradingAPI.getAccountInfo
                       (TradingAPI.Build_t (keyOf key) TradingAPI.defaultBaseURL) net))
        as [err | result]; [|destruct (getProp result (js "data"))]; repeat split.
  - rewrite (@fetchAccountInfo_unbound key net Hkey). cbn [fst].
    split; [reflexivity|]. split; [reflexivity|]. split; [reflexivity|].
    split; [intros _; repeat split | discriminate].
Qed.

Lemma fetchAccountInfo_clears_loading_witness :
  (List.filter isApiFetch
     (fst (fetchAccountInfo false (Some (js "key-1"))
             (Response 200 (Parsed (VObj [(js "data", VBool true)]))))) = [] /\
   error (commitHook initialHook
            (fst (fetchAccountInfo false (Some (js "key-1"))
                    (Response 200 (Parsed (VObj [(js "data", VBool true)])))))) =
     Some ReferenceErrorThrown) /\
  (loading (commitHook initialHook
              (fst (fetchAccountInfo true (Some (js "key-1")) (Response 503 NotJson)))) =
     false /\
   accountInfo (commitHook initialHook
                  (fst (fetchAccountInfo true (Some (js "key-1")) (Response 503 NotJson)))) =
     VNull /\
   error (commitHook initialHook
            (fst (fetchAccountInfo true (Some (js "key-1")) (Response 503 NotJson)))) =
     Some JsonRejected).
Proof.
  destruct (fetchAccountInfo_clears_loading false (Some (js "key-1"))
              (Response 200 (Parsed (VObj [(js "data", VBool true)]))) initialHook)
    as [_ Hunbound].
  destruct (Hunbound eq_refl) as (_ & _ & _ & Hno & _).
  destruct (Hno eq_refl) as (Hfetch & _ & Herr).
  destruct (fetchAccountInfo_clears_loading true (Some (js "key-1"))
              (Response 503 NotJson) initialHook) as [_ Hbound].
  destruct (Hbound eq_refl) as (_ & _ & Hloading & _ & Hyes).
  destruct (Hyes eq_refl) as [Hinfo Herr'].
  repeat split; assumption.
Defined.

Lemma hookPlaceBuyOrder_unbound (key : option jsstring) (net : FetchOutcome)
  (symbol quantity : value) :
  noKey key = false ->
  hookPlaceBuyOrder false key net symbol quantity =
  ([SetLoading true; SetError None; SetError (Some ReferenceErrorThrown); SetLoading false],
   inl ReferenceErrorThrown).
Proof. intros Hkey. unfold hookPlaceBuyOrder. rewrite Hkey. reflexivity. Qed.

Lemma hookPlaceBuyOrder_run (key : option jsstring) (net : FetchOutcome)
  (symbol quantity : value) :
  noKey key = false ->
  hookPlaceBuyOrder true key net symbol quantity =
  ([SetLoading true; SetError None] ++
   fst (TradingAPI.placeBuyOrder
          (TradingAPI.Build_t (keyOf key) TradingAPI.defaultBaseURL) net symbol quantity) ++
   match snd (TradingAPI.placeBuyOrder
                (TradingAPI.Build_t (keyOf key) TradingAPI.defaultBaseURL) net symbol
                quantity) with
   | inr result =>
       match getProp result (js "data") with
       | Some _ => []
       | None => [SetError (Some TypeErrorThrown)]
       end
   | inl err => [SetError (Some err)]
   end ++ [SetLoading false],
   match snd (TradingAPI.placeBuyOrder
                (TradingAPI.Build_t (keyOf key) TradingAPI.defaultBaseURL) net symbol
                quantity) with
   | inr result =>
       match getProp result (js "data") with
       | Some d => inr d
       | None => inl TypeErrorThrown
       end
   | inl err => inl err
   end).
Proof.
  intros Hkey. unfold hookPlaceBuyOrder, newTradingAPI. rewrite Hkey.
  unfold eret at 1. unfold ebind at 3.
  destruct (TradingAPI.placeBuyOrder
              (TradingAPI.Build_t (keyOf key) TradingAPI.defaultBaseURL) net symbol quantity)
    as [t [err | result]]; cbn [ebind etry efinally eemit ethrow fst snd app].
  - rewrite <- app_assoc. reflexivity.
  - unfold dataOf, ebind.
    destruct (getProp result (js "data")); cbn [etry eemit ethrow fst snd app];
      rewrite <- ?app_assoc, ?app_nil_r; reflexivity.
Qed.

(** X25.  The [placeBuyOrder] of [useTrading] returns [undefined] and does
    nothing without an API key.  With one, it leaves [loading] false on
    every path.  Where no global [TradingAPI] exists (the file itself
    provides none) it makes no request, stores the [ReferenceError] and
    rejects with it.  Where one exists: when the request rejects it stores
    the error and rejects with that same error, and when the request
    resolves it returns [result.data] and leaves the error cleared. *)
Theorem hookPlaceBuyOrder_rethrows (bound : bool) (key : option jsstring)
  (net : FetchOutcome) (symbol quantity : value) (h : HookState) :
  (noKey key = true ->
   hookPlaceBuyOrder bound key net symbol quantity = ([], inr VUndefined)) /\
  (noKey key = false ->
   loading (commitHook h (fst (hookPlaceBuyOrder bound key net symbol quantity))) = false /\
   (bound = false ->
    List.filter isApiFetch (fst (hookPlaceBuyOrder bound key net symbol quantity)) = [] /\
    snd (hookPlaceBuyOrder bound key net symbol quantity) = inl ReferenceErrorThrown /\
    error (commitHook h (fst (hookPlaceBuyOrder bound key net symbol quantity))) =
      Some ReferenceErrorThrown) /\
   (bound = true ->
    match snd (TradingAPI.placeBuyOrder
                 (TradingAPI.Build_t (keyOf key) TradingAPI.defaultBaseURL) net symbol
                 quantity) with
    | inl err =>
        snd (hookPlaceBuyOrder bound key net symbol quantity) = inl err /\
        error (commitHook h (fst (hookPlaceBuyOrder bound key net symbol quantity))) =
          Some err
    | inr result =>
        match getProp result (js "data") with
        | Some d =>
            snd (hookPlaceBuyOrder bound key net symbol quantity) = inr d /\
            error (commitHook h (fst (hookPlaceBuyOrder bound key net symbol quantity))) =
              None
        | None =>
            snd (hookPlaceBuyOrder bound key net symbol quantity) = inl TypeErrorThrown /\
            error (commitHook h (fst (hookPlaceBuyOrder bound key net symbol quantity))) =
              Some TypeErrorThrown
        end
    end)).
Proof.
  split; [intros Hkey; unfold hookPlaceBuyOrder; rewrite Hkey; reflexivity|].
  intros Hkey. destruct bound.
  - rewrite (@hookPlaceBuyOrder_run key net symbol quantity Hkey). cbn [fst snd].
    pose proof (request_no_hook_setter
                  (TradingAPI.Build_t (keyOf key) TradingAPI.defaultBaseURL) net
                  (js "/api/orders/buy/market") (js "POST")
                  (Some (VObj [(js "symbol", symbol); (js "quantity", quantity)])))
      as Hquiet.
    fold (TradingAPI.placeBuyOrder
            (TradingAPI.Build_t (keyOf key) TradingAPI.defaultBaseURL) net symbol quantity)
      in Hquiet.
    rewrite !commitHook_app, (@commitHook_neutral _ _ Hquiet).
    split; [|split; [discriminate|intros _]].
    + destruct (snd (TradingAPI.placeBuyOrder
                       (TradingAPI.Build_t (keyOf key) TradingAPI.defaultBaseURL) net symbol
                       quantity))
        as [err | result]; [|destruct (getProp result (js "data"))]; reflexivity.
    + destruct (snd (TradingAPI.placeBuyOrder
                       (TradingAPI.Build_t (keyOf key) TradingAPI.defaultBaseURL) net symbol
                       quantity))
        as [err | result]; [|destruct (getProp result (js "data"))]; repeat split.
  - rewrite (@hookPlaceBuyOrder_unbound key net symbol quantity Hkey). cbn [fst snd].
    split; [reflexivity|]. split; [intros _; repeat split | discriminate].
Qed.

Lemma hookPlaceBuyOrder_rethrows_witness :
  (List.filter isApiFetch
     (fst (hookPlaceBuyOrder false (Some (js "key-1"))
             (Response 200 (Parsed (VObj [(js "data", VBool true)])))
             (VStr (js "BTCUSDT")) (VStr (js "0.001")))) = [] /\
   snd (hookPlaceBuyOrder false (Some (js "key-1"))
          (Response 200 (Parsed (VObj [(js "data", VBool true)])))
          (VStr (js "BTCUSDT")) (VStr (js "0.001"))) = inl ReferenceErrorThrown) /\
  (snd (hookPlaceBuyOrder true (Some (js "key-1")) NetworkError
          (VStr (js "BTCUSDT")) (VStr (js "0.001"))) = inl FetchRejected /\
   error (commitHook initialHook
            (fst (hookPlaceBuyOrder true (Some (js "key-1")) NetworkError
                    (VStr (js "BTCUSDT")) (VStr (js "0.001"))))) = Some FetchRejected).
Proof.
  destruct (hookPlaceBuyOrder_rethrows false (Some (js "key-1"))
              (Response 200 (Parsed (VObj [(js "data", VBool true)])))
              (VStr (js "BTCUSDT")) (VStr (js "0.001")) initialHook) as [_ Hunbound].
  destruct (Hunbound eq_refl) as (_ & Hno & _).
  destruct (Hno eq_refl) as (Hfetch & Hrej & _).
  destruct (hookPlaceBuyOrder_rethrows true (Some (js "key-1")) NetworkError
              (VStr (js "BTCUSDT")) (VStr (js "0.001")) initialHook) as [_ Hbound].
  destruct (Hbound eq_refl) as (_ & _ & Hyes).
  destruct (Hyes eq_refl) as [Hrej' Herr].
  repeat split; assumption.
Defined.

(** ** Trading events as text *)

Lemma length_splitOn (sep : N) (s : jsstring) :
  List.length (splitOn sep s) = S (List.length (List.filter (fun c => N.eqb c sep) s)).
Proof.
  induction s as [|c s IH]; [reflexivity|]. simpl.
  destruct (N.eqb c sep); simpl; [rewrite IH; reflexivity|].
  destruct (splitOn sep s) as [|part parts]; [discriminate IH|]. exact IH.
Qed.

Lemma splitOn_field (a b : jsstring) :
  hasBar a = false -> splitOn bar (a ++ bar :: b) = a :: splitOn bar b.
Proof.
  unfold hasBar. induction a as [|c a IH]; intros Ha; [reflexivity|].
  cbn [existsb] in Ha. apply orb_false_iff in Ha. destruct Ha as [Hc Ha].
  cbn [app splitOn]. rewrite N.eqb_sym, Hc, (IH Ha). reflexivity.
Qed.

Lemma splitOn_last (a : jsstring) : hasBar a = false -> splitOn bar a = [a].
Proof.
  unfold hasBar. induction a as [|c a IH]; intros Ha; [reflexivity|].
  cbn [existsb] in Ha. apply orb_false_iff in Ha. destruct Ha as [Hc Ha].
  cbn [app splitOn]. rewrite N.eqb_sym, Hc, (IH Ha). reflexivity.
Qed.

Lemma parseTradingEvent_needs_six (parseFloat : jsstring -> float) (s : jsstring) :
  (exists event, TradingAPI.parseTradingEvent parseFloat s = inr event) <->
  List.length (splitOn bar s) = 6.
Proof.
  unfold TradingAPI.parseTradingEvent. split.
  - intros [event H].
    destruct (splitOn bar s) as [|p0 [|p1 [|p2 [|p3 [|p4 [|p5 [|p6 rest]]]]]]];
      try discriminate H. reflexivity.
  - intros Hlen.
    destruct (splitOn bar s) as [|p0 [|p1 [|p2 [|p3 [|p4 [|p5 [|p6 rest]]]]]]];
      simpl in Hlen; try lia. eexists. reflexivity.
Qed.

(** X26.  [parseTradingEvent] rejects every string [formatTradingEvent]
    produces: the text has a bar before, between and after its five
    fields, so it splits into at least seven parts where the parser insists
    on six. *)
Theorem parse_rejects_formatted_events (parseFloat : jsstring -> float)
  (exchange quantity price pair side : jsstring) :
  TradingAPI.parseTradingEvent parseFloat
    (TradingAPI.formatTradingEvent exchange quantity price pair side) =
  inl (ErrorOf (VStr (js "Invalid event format"))).
Proof.
  pose proof (parseTradingEvent_needs_six parseFloat
                (TradingAPI.formatTradingEvent exchange quantity price pair side)) as H.
  assert (Hlen : 7 <= List.length
                        (splitOn bar
                           (TradingAPI.formatTradingEvent exchange quantity price pair side))).
  { rewrite length_splitOn. unfold TradingAPI.formatTradingEvent.
    rewrite !filter_app, !length_app. simpl. lia. }
  unfold TradingAPI.parseTradingEvent in *.
  destruct (splitOn bar (TradingAPI.formatTradingEvent exchange quantity price pair side))
    as [|p0 [|p1 [|p2 [|p3 [|p4 [|p5 [|p6 rest]]]]]]]; simpl in Hlen; try reflexivity; lia.
Qed.

(** X27.  What [parseTradingEvent] accepts is a text with exactly five bars.
    Its fields are the five parts after the first bar; whatever stands
    before the first bar is ignored. *)
Theorem parse_accepts_five_bars (parseFloat : jsstring -> float) (s : jsstring) :
  ((exists event, TradingAPI.parseTradingEvent parseFloat s = inr event) <->
   List.length (List.filter (fun c => N.eqb c bar) s) = 5) /\
  (forall head exchange quantity price pair side,
      hasBar head = false -> hasBar exchange = false -> hasBar quantity = false ->
      hasBar price = false -> hasBar pair = false -> hasBar side = false ->
      TradingAPI.parseTradingEvent parseFloat
        (head ++ js "|" ++ exchange ++ js "|" ++ quantity ++ js "|" ++ price ++ js "|"
         ++ pair ++ js "|" ++ side) =
      inr (Build_TradingEvent exchange (parseFloat quantity) (parseFloat price) pair side)).
Proof.
  split.
  - rewrite parseTradingEvent_needs_six, length_splitOn. split; intros H; lia.
  - intros head exchange quantity price pair side H0 H1 H2 H3 H4 H5.
    unfold TradingAPI.parseTradingEvent.
    change (js "|") with [bar]. cbn [app].
    rewrite !splitOn_field, splitOn_last by assumption. reflexivity.
Qed.

Lemma parse_accepts_five_bars_witness :
  TradingAPI.parseTradingEvent (fun _ => 0%float)
    (js "" ++ js "|" ++ js "binance" ++ js "|" ++ js "0.5" ++ js "|" ++ js "42000" ++ js "|"
     ++ js "BTCUSDT" ++ js "|" ++ js "BUY") =
  inr (Build_TradingEvent (js "binance") 0%float 0%float (js "BTCUSDT") (js "BUY")).
Proof.
  apply (parse_accepts_five_bars (fun _ => 0%float) (js "")); reflexivity.
Defined.

(** ** The handler registry of the SDK *)

(** X28.  [emit] calls every handler registered for the event, once each and
    in the order of registration, also after a handler has thrown; it logs
    an error for each handler that throws and throws nothing itself.  For
    an event without handlers it does nothing. *)
Theorem emit_calls_every_callback (throws : Callback -> bool)
  (reg : TradingAPI.Registry) (event : jsstring) :
  (reg event = None -> TradingAPI.emit throws reg event = []) /\
  (forall callbacks,
      reg event = Some callbacks ->
      calledOf (TradingAPI.emit throws reg event) = callbacks /\
      failedOf (TradingAPI.emit throws reg event) = List.filter throws callbacks).
Proof.
  unfold TradingAPI.emit. split.
  - intros H. rewrite H. reflexivity.
  - intros callbacks H. rewrite H. clear H.
    induction callbacks as [|c callbacks [IH1 IH2]]; [split; reflexivity|].
    unfold calledOf, failedOf in *. cbn [flat_map List.filter].
    destruct (throws c); cbn [app flat_map]; rewrite ?IH1, ?IH2; split; reflexivity.
Qed.

Lemma emit_calls_every_callback_witness :
  calledOf
    (TradingAPI.emit (fun c => Nat.eqb c 1)
       (TradingAPI.on (TradingAPI.on (TradingAPI.on TradingAPI.noCallbacks (js "message") 1)
                         (js "message") 2) (js "message") 1)
       (js "message")) = [1; 2; 1] /\
  failedOf
    (TradingAPI.emit (fun c => Nat.eqb c 1)
       (TradingAPI.on (TradingAPI.on (TradingAPI.on TradingAPI.noCallbacks (js "message") 1)
                         (js "message") 2) (js "message") 1)
       (js "message")) = [1; 1].
Proof.
  apply (emit_calls_every_callback (fun c => Nat.eqb c 1)
           (TradingAPI.on (TradingAPI.on (TradingAPI.on TradingAPI.noCallbacks (js "message") 1)
                             (js "message") 2) (js "message") 1)
           (js "message")).
  reflexivity.
Defined.

Lemma eqb_str_false (a b : jsstring) : a <> b -> eqb_str a b = false.
Proof.
  intros H. destruct (eqb_str a b) eqn:E; [|reflexivity].
  apply eqb_str_true in E. contradiction.
Qed.

Lemma count_removeFirst (callback other : Callback) (callbacks : list Callback) :
  count_occ Nat.eq_dec (removeFirst callback callbacks) other =
  if Nat.eqb other callback
  then Nat.pred (count_occ Nat.eq_dec callbacks other)
  else count_occ Nat.eq_dec callbacks other.
Proof.
  induction callbacks as [|c callbacks IH]; simpl.
  - destruct (Nat.eqb other callback); reflexivity.
  - destruct (Nat.eqb_spec c callback) as [Hc | Hc].
    + subst c. destruct (Nat.eq_dec callback other) as [E | E].
      * subst other. rewrite Nat.eqb_refl. reflexivity.
      * destruct (Nat.eqb_spec other callback); [congruence | reflexivity].
    + simpl. rewrite IH. destruct (Nat.eq_dec c other) as [E | E]; [|reflexivity].
      subst other. destruct (Nat.eqb_spec c callback); [contradiction | reflexivity].
Qed.

Lemma removeFirst_at_first (callback : Callback) (before after : list Callback) :
  ~ In callback before ->
  removeFirst callback (before ++ callback :: after) = before ++ after.
Proof.
  induction before as [|c before IH]; intros Hnot; simpl.
  - rewrite Nat.eqb_refl. reflexivity.
  - destruct (Nat.eqb_spec c callback) as [E | E].
    + exfalso. apply Hnot. left. exact E.
    + f_equal. apply IH. intros Hin. apply Hnot. right. exact Hin.
Qed.

Lemma first_occurrence (callback : Callback) (callbacks : list Callback) :
  In callback callbacks ->
  exists before after,
    callbacks = before ++ callback :: after /\ ~ In callback before.
Proof.
  induction callbacks as [|c callbacks IH]; intros Hin; [contradiction|].
  destruct (Nat.eq_dec c callback) as [E | E].
  - subst c. exists [], callbacks. split; [reflexivity | intros []].
  - destruct Hin as [Hc | Hin]; [contradiction|].
    destruct (IH Hin) as (before & after & Heq & Hnot).
    exists (c :: before), after. split; [rewrite Heq; reflexivity|].
    intros [Hc | Hb]; [contradiction | exact (Hnot Hb)].
Qed.

(** X29.  [off] takes away one registration of the handler, the earliest,
    and nothing else: where the handlers of the event are [before], the
    handler, and [after], with the handler not among [before], they are
    [before] and [after] afterwards, in that order.  So a handler
    registered twice is still registered once, the other handlers keep
    their registrations and their order, other events are untouched, and
    for a handler or an event that is not registered nothing changes. *)
Theorem off_removes_one_registration (reg : TradingAPI.Registry) (event : jsstring)
  (callback : Callback) :
  (forall e, e <> event -> TradingAPI.off reg event callback e = reg e) /\
  (reg event = None -> TradingAPI.off reg event callback event = None) /\
  (forall callbacks,
      reg event = Some callbacks ->
      TradingAPI.off reg event callback event = Some (removeFirst callback callbacks) /\
      count_occ Nat.eq_dec (removeFirst callback callbacks) callback =
        Nat.pred (count_occ Nat.eq_dec callbacks callback) /\
      (forall other, other <> callback ->
                     count_occ Nat.eq_dec (removeFirst callback callbacks) other =
                     count_occ Nat.eq_dec callbacks other) /\
      (~ In callback callbacks -> removeFirst callback callbacks = callbacks) /\
      (~ In callback callbacks ->
       TradingAPI.off reg event callback event = Some callbacks) /\
      (In callback callbacks ->
       exists before after,
         callbacks = before ++ callback :: after /\ ~ In callback before) /\
      (forall before after,
          callbacks = before ++ callback :: after ->
          ~ In callback before ->
          TradingAPI.off reg event callback event = Some (before ++ after))).
Proof.
  unfold TradingAPI.off. split; [|split].
  - intros e He. rewrite (eqb_str_false He). reflexivity.
  - intros H. rewrite eqb_str_refl, H. reflexivity.
  - intros callbacks H. rewrite eqb_str_refl, H.
    assert (Hsame : ~ In callback callbacks -> removeFirst callback callbacks = callbacks).
    { clear H. induction callbacks as [|c callbacks IH]; intros Hnot; [reflexivity|].
      simpl. destruct (Nat.eqb_spec c callback) as [E | E].
      - exfalso. apply Hnot. left. exact E.
      - f_equal. apply IH. intros Hin. apply Hnot. right. exact Hin. }
    split; [reflexivity|]. split; [|split; [|split; [|split; [|split]]]].
    + rewrite count_removeFirst, Nat.eqb_refl. reflexivity.
    + intros other Ho. rewrite count_removeFirst.
      destruct (Nat.eqb_spec other callback); [contradiction | reflexivity].
    + exact Hsame.
    + intros Hnot. rewrite (Hsame Hnot). reflexivity.
    + apply first_occurrence.
    + intros before after Heq Hnot. subst callbacks.
      rewrite (@removeFirst_at_first callback before after Hnot). reflexivity.
Qed.

Lemma off_removes_one_registration_witness :
  TradingAPI.off
    (TradingAPI.on
       (TradingAPI.on
          (TradingAPI.on (TradingAPI.on TradingAPI.noCallbacks (js "message") 8)
             (js "message") 7)
          (js "message") 9)
       (js "message") 7)
    (js "message") 7 (js "message") = Some ([8] ++ [9; 7]).
Proof.
  destruct (off_removes_one_registration
              (TradingAPI.on
                 (TradingAPI.on
                    (TradingAPI.on (TradingAPI.on TradingAPI.noCallbacks (js "message") 8)
                       (js "message") 7)
                    (js "message") 9)
                 (js "message") 7)
              (js "message") 7) as (_ & _ & H).
  destruct (H [8; 7; 9; 7] eq_refl) as (_ & _ & _ & _ & _ & _ & Hfirst).
  apply (Hfirst [8] [9; 7]).
  - reflexivity.
  - intros [E | []]. discriminate E.
Defined.

Lemma removeFirst_app (callback : Callback) (callbacks rest : list Callback) :
  removeFirst callback (callbacks ++ rest) =
  if existsb (fun c => Nat.eqb c callback) callbacks
  then removeFirst callback callbacks ++ rest
  else callbacks ++ removeFirst callback rest.
Proof.
  induction callbacks as [|c callbacks IH]; [reflexivity|].
  simpl. destruct (Nat.eqb c callback); [reflexivity|].
  simpl. rewrite IH.
  destruct (existsb (fun c0 => Nat.eqb c0 callback) callbacks); reflexivity.
Qed.

(** X30.  [off] after [on] undoes the registration only for a handler that was
    not registered for the event before.  If it was, it is the earlier
    registration that goes, and the handler moves to the end of the calling
    order.  For an event that had no handlers, the event is left with an
    empty array. *)
Theorem off_after_on (reg : TradingAPI.Registry) (event : jsstring)
  (callback : Callback) :
  (reg event = None ->
   TradingAPI.off (TradingAPI.on reg event callback) event callback event = Some []) /\
  (forall callbacks,
      reg event = Some callbacks ->
      (~ In callback callbacks ->
       TradingAPI.off (TradingAPI.on reg event callback) event callback event =
       Some callbacks) /\
      (In callback callbacks ->
       TradingAPI.off (TradingAPI.on reg event callback) event callback event =
       Some (removeFirst callback callbacks ++ [callback]))).
Proof.
  unfold TradingAPI.off, TradingAPI.on. rewrite !eqb_str_refl. split.
  - intros H. rewrite H. simpl. rewrite Nat.eqb_refl. reflexivity.
  - intros callbacks H. rewrite H, removeFirst_app.
    assert (Hin : existsb (fun c => Nat.eqb c callback) callbacks = true <->
                  In callback callbacks).
    { rewrite existsb_exists. split.
      - intros [c [Hc E]]. apply Nat.eqb_eq in E. subst c. exact Hc.
      - intros Hc. exists callback. split; [exact Hc | apply Nat.eqb_refl]. }
    split; intros Hc.
    + destruct (existsb (fun c => Nat.eqb c callback) callbacks).
      * exfalso. apply Hc, Hin. reflexivity.
      * simpl. rewrite Nat.eqb_refl, app_nil_r. reflexivity.
    + rewrite (proj2 Hin Hc). reflexivity.
Qed.

Lemma off_after_on_witness :
  TradingAPI.off
    (TradingAPI.on (TradingAPI.on (TradingAPI.on TradingAPI.noCallbacks (js "message") 1)
                      (js "message") 2) (js "message") 1)
    (js "message") 1 (js "message") = Some [2; 1].
Proof.
  destruct (off_after_on
              (TradingAPI.on (TradingAPI.on TradingAPI.noCallbacks (js "message") 1)
                 (js "message") 2)
              (js "message") 1) as (_ & H).
  destruct (H [1; 2] eq_refl) as [_ Hin]. apply Hin. left. reflexivity.
Defined.
